(** * Strelka somatic indel VCF writer

    A shallow embedding of
    [src/c++/lib/applications/strelka/SomaticIndelVcfWriter.cpp]:
    the statistical annotations ([safeFrac], [calculateIndelAF],
    [calculateSOR], [calculateFS]), the sample-column and record
    formatters ([write_vcf_isri_tiers], [writeSomaticIndelVcfGrid]) and the
    per-position buffer ([cacheIndel], [addIndelWindowData]).

    Conventions.
    - [unsigned] and [int] are 32-bit; a value is a [Z] and every wrap-around
      or narrowing conversion is written out.
    - [float] and [double] are IEEE-754 binary32 and binary64 values of
      [spec_float]; arithmetic is the correctly rounded arithmetic of
      [SpecFloat] at the matching precision.
    - An [std::ostream] is the sequence of insertions made into it together
      with the formatting state ([floatfield], [precision]) it carries; a
      floating-point insertion records the formatting state it was made
      under.
    - A conversion whose result C++ leaves undefined and a failed [assert]
      are failures of the [result] monad. *)

From Stdlib Require Import ZArith Lia Bool String Ascii List.
From Stdlib Require Import SpecFloat.
From stdpp Require Import base gmap list.

Local Open Scope Z_scope.

(** ** Machine integers *)

Module Int32.

Definition modulus : Z := 2 ^ 32.
Definition INT_MAX : Z := 2 ^ 31 - 1.
Definition INT_MIN : Z := - 2 ^ 31.

(** An [unsigned] value. *)
Definition is_unsigned (z : Z) : Prop := 0 <= z < modulus.

(** Unsigned arithmetic is arithmetic modulo [2^32]. *)
Definition wrap (z : Z) : Z := z mod modulus.

(** [unsigned] to [int]: the value is kept when it is representable and
    reduced modulo [2^32] otherwise. *)
Definition to_int (u : Z) : Z := if u <? 2 ^ 31 then u else u - modulus.

Definition in_int_range (z : Z) : bool := (INT_MIN <=? z) && (z <=? INT_MAX).

End Int32.

(** ** Failures *)

Inductive failure : Set :=
| AssertionFailed
| UndefinedBehaviour.

Inductive result (A : Type) : Type :=
| Ok (a : A)
| Fail (f : failure).

Arguments Ok {A} a.
Arguments Fail {A} f.

#[global] Instance result_ret : MRet result := fun _ a => Ok a.

#[global] Instance result_bind : MBind result := fun _ _ k r =>
  match r with
  | Ok a => k a
  | Fail f => Fail f
  end.

(** ** IEEE-754 values *)

Module IEEE.

(** binary64 *)
Definition double_prec : Z := 53.
Definition double_emax : Z := 1024.
(** binary32 *)
Definition float_prec : Z := 24.
Definition float_emax : Z := 128.

Definition zero : spec_float := S754_zero false.
Definition infinity : spec_float := S754_infinity false.

(** [static_cast<double>(z)] for an integer [z]. *)
Definition double_of_Z (z : Z) : spec_float :=
  binary_normalize double_prec double_emax z 0 false.

Definition double_div : spec_float -> spec_float -> spec_float :=
  SFdiv double_prec double_emax.

Definition float_add : spec_float -> spec_float -> spec_float :=
  SFadd float_prec float_emax.

Definition float_div : spec_float -> spec_float -> spec_float :=
  SFdiv float_prec float_emax.

(** [static_cast<float>(z)] for an integer [z]. *)
Definition float_of_Z (z : Z) : spec_float :=
  binary_normalize float_prec float_emax z 0 false.

(** [double] to [float]: rounding to nearest, ties to even. *)
Definition float_of_double (x : spec_float) : spec_float :=
  match x with
  | S754_finite s m e => binary_round float_prec float_emax s m e
  | _ => x
  end.

(** [float] to [double], the promotion of a [float] operand that meets a
    [double] one: every [float] is a [double], the mantissa is realigned
    to 53 digits. *)
Definition double_of_float (x : spec_float) : spec_float :=
  match x with
  | S754_finite s m e => binary_round double_prec double_emax s m e
  | _ => x
  end.

(** The integer part of a finite value, rounding towards zero. *)
Definition truncate (x : spec_float) : option Z :=
  match x with
  | S754_zero _ => Some 0
  | S754_finite s m e =>
      Some (cond_Zopp s
              (match e with
               | Zneg p => Z.shiftr (Zpos m) (Zpos p)
               | _ => Z.shiftl (Zpos m) e
               end))
  | S754_infinity _ | S754_nan => None
  end.

(** Floating-point to [int]: truncation; undefined when the truncated
    value is not representable (which includes infinities and NaN). *)
Definition to_int (x : spec_float) : result Z :=
  match truncate x with
  | Some z => if Int32.in_int_range z then Ok z else Fail UndefinedBehaviour
  | None => Fail UndefinedBehaviour
  end.

(** [x >= y] between two [double] values.  [SFleb] orders finite values
    of one sign by exponent first, which is the numeric order between
    values normalised to one format only: a [float] operand goes through
    [double_of_float] first, as the promotion of the source does. *)
Definition geb (x y : spec_float) : bool := SFleb y x.
(** [x > y], both operands [double] *)
Definition gtb (x y : spec_float) : bool := SFltb y x.

(** [int + int]; signed overflow is undefined. *)
Definition int_add (a b : Z) : result Z :=
  if Int32.in_int_range (a + b) then Ok (a + b) else Fail UndefinedBehaviour.

End IEEE.

(** ** Data model *)

(** Modelled from the spec: [ranksum] is declared outside this file; the
    evidence holds "a rank-sum statistic over read position", the
    floating-point value [get_u_stat()] returns. *)
Record ranksum : Type := { get_u_stat : spec_float }.

(** Modelled from the spec: [starling_indel_sample_report_info] is declared
    outside this file. The fields are those this file reads. The read
    counts and the depth are "non-negative integer counts", held as
    [unsigned] ([calculateSOR] multiplies them into [unsigned int],
    [writeSomaticIndelVcfGrid] binds [depth] to a [const unsigned&]); the
    mean mapping quality and the zero-mapping-quality fraction are
    floating-point values. *)
Record starling_indel_sample_report_info : Type := {
  n_q30_ref_reads : Z;
  n_q30_indel_reads : Z;
  n_q30_alt_reads : Z;
  n_other_reads : Z;
  n_q30_ref_reads_fwd : Z;
  n_q30_ref_reads_rev : Z;
  n_q30_indel_reads_fwd : Z;
  n_q30_indel_reads_rev : Z;
  depth : Z;
  readpos_ranksum : ranksum;
  mean_mapq : spec_float;
  mapq0_frac : spec_float
}.

(** Every count of an evidence record is an [unsigned] value. *)
Definition isri_wf (isri : starling_indel_sample_report_info) : Prop :=
  Int32.is_unsigned (n_q30_ref_reads isri) /\
  Int32.is_unsigned (n_q30_indel_reads isri) /\
  Int32.is_unsigned (n_q30_alt_reads isri) /\
  Int32.is_unsigned (n_other_reads isri) /\
  Int32.is_unsigned (n_q30_ref_reads_fwd isri) /\
  Int32.is_unsigned (n_q30_ref_reads_rev isri) /\
  Int32.is_unsigned (n_q30_indel_reads_fwd isri) /\
  Int32.is_unsigned (n_q30_indel_reads_rev isri) /\
  Int32.is_unsigned (depth isri).

(** Collaborators that this translation unit calls and does not define. *)
Class Collaborators : Type := {
  (** [log10] of the C library *)
  log10 : spec_float -> spec_float;
  (** [blt_util/qscore.hh] *)
  error_prob_to_phred : spec_float -> spec_float;
  (** [blt_util/fisher_exact_test.hh] *)
  fisher_exact_test_pval_2x2 : Z -> Z -> Z -> Z -> spec_float
}.

(** ** Statistical annotations *)

Definition safeFrac (num denom : Z) : spec_float :=
  if 0 <? denom
  then IEEE.double_div (IEEE.double_of_Z num) (IEEE.double_of_Z denom)
  else IEEE.zero.

(** The arguments are [unsigned] expressions passed to [const int]
    parameters. *)
Definition calculateIndelAF (isri : starling_indel_sample_report_info) : spec_float :=
  safeFrac
    (Int32.to_int (n_q30_indel_reads isri))
    (Int32.to_int
       (Int32.wrap (n_q30_ref_reads isri + n_q30_alt_reads isri + n_q30_indel_reads isri))).

Section Annotations.
Context `{Collaborators}.

Definition calculateSOR (isri : starling_indel_sample_report_info) : spec_float :=
  let num := Int32.wrap (n_q30_ref_reads_fwd isri * n_q30_indel_reads_rev isri) in
  let denom := Int32.wrap (n_q30_ref_reads_rev isri * n_q30_indel_reads_fwd isri) in
  if denom =? 0
  then IEEE.infinity
  else log10 (IEEE.double_div (IEEE.double_of_Z num) (IEEE.double_of_Z denom)).

Definition calculateFS (isri : starling_indel_sample_report_info) : spec_float :=
  error_prob_to_phred
    (fisher_exact_test_pval_2x2
       (n_q30_ref_reads_fwd isri) (n_q30_indel_reads_fwd isri)
       (n_q30_ref_reads_rev isri) (n_q30_indel_reads_rev isri)).

End Annotations.

(** ** Candidates and options *)

(** Modelled from the spec: the enumerators of [NTYPE] are declared
    outside this file, which tests for [REF] and prints the label; the
    classifications are "reference/het/hom/unknown". *)
Inductive NTYPE : Set := REF | HET | HOM | CONFLICT.

(** Modelled from the spec: the enumerators of [INDEL] are declared outside
    this file, which tests for [BP_LEFT] and [BP_RIGHT]; the tag
    distinguishes "ordinary indels from breakend-type indels (left/right
    breakpoint)". *)
Inductive INDEL : Set := NONE | INSERT | DELETE | SWAP | BP_LEFT | BP_RIGHT.

#[global] Instance NTYPE_eq_dec : EqDecision NTYPE.
Proof. solve_decision. Defined.

#[global] Instance INDEL_eq_dec : EqDecision INDEL.
Proof. solve_decision. Defined.

(** Modelled from the spec: [starling_indel_report_info] is declared
    outside this file. The fields are those this file reads;
    [is_repeat_unit] holds what the member function of that name returns,
    whether the descriptor carries repeat-unit metadata. *)
Record starling_indel_report_info : Type := {
  vcf_ref_seq : string;
  vcf_indel_seq : string;
  is_repeat_unit : bool;
  repeat_unit : string;
  ref_repeat_count : Z;
  indel_repeat_count : Z;
  ihpol : Z;
  it : INDEL
}.

(** Modelled from the spec: [somatic_indel_call::result_set] is declared
    outside this file. The fields are those this file reads: the qualities
    are phred-scaled integers, [max_gt] is printed as the integer its cast
    to [DDIINDEL_GRID::index_t] gives. *)
Record result_set : Type := {
  ntype : NTYPE;
  sindel_qphred : Z;
  sindel_from_ntype_qphred : Z;
  max_gt : Z;
  is_overlap : bool
}.

(** [somatic_indel_call]: the result set and the two tier indices, which
    are [unsigned]. *)
Record somatic_indel_call : Type := {
  rs : result_set;
  sindel_tier : Z;
  sindel_from_ntype_tier : Z
}.

(** [SomaticIndelVcfInfo]; [nisri] and [tisri] are two-element arrays,
    [fst] is element [0] and [snd] is element [1]. *)
Record SomaticIndelVcfInfo : Type := {
  sindel : somatic_indel_call;
  iri : starling_indel_report_info;
  nisri : starling_indel_sample_report_info * starling_indel_sample_report_info;
  tisri : starling_indel_sample_report_info * starling_indel_sample_report_info
}.

(** Modelled from the spec: [window_average] is declared outside this
    file; it is a "streaming average" whose value [avg()] is a [float]
    ([write_vcf_isri_tiers] reads it into a [const float]). *)
Record window_average : Type := { avg : spec_float }.

Record win_avg_set : Type := {
  ss_used_win : window_average;
  ss_filt_win : window_average;
  ss_submap_win : window_average
}.

(** Modelled from the spec: the options are declared outside this file.
    [opt.sfilter] holds the "max window-filtered-basecall fraction", a
    floating-point value, and the "NT-relative somatic-quality lower
    bound", an integer as the quality it is compared with. *)
Record somatic_filter_options : Type := {
  indelMaxWindowFilteredBasecallFrac : spec_float;
  sindelQuality_LowerBound : Z
}.

Record strelka_options : Type := {
  bam_seq_name : string;
  sfilter : somatic_filter_options
}.

(** Modelled from the spec: [dopt.sfilter] holds the "max-depth threshold
    (optional -- absent means unlimited)": [is_max_depth] holds what the
    member function of that name returns, whether a threshold is
    configured, and [max_depth] the threshold, a floating-point value. *)
Record somatic_filter_deriv_options : Type := {
  is_max_depth : bool;
  max_depth : spec_float
}.

(** [strelka_deriv_options]; its member [sfilter] is named [dsfilter] here,
    [sfilter] being taken by [strelka_options]. *)
Record strelka_deriv_options : Type := {
  dsfilter : somatic_filter_deriv_options
}.

(** ** Site filters *)

(** The enumerators of [STRELKA_VCF_FILTERS] that this file sets. *)
Inductive STRELKA_VCF_FILTERS : Set := HighDepth | IndelBCNoise | QSI_ref.

#[global] Instance STRELKA_VCF_FILTERS_eq_dec : EqDecision STRELKA_VCF_FILTERS.
Proof. solve_decision. Defined.

#[global] Instance STRELKA_VCF_FILTERS_countable : Countable STRELKA_VCF_FILTERS.
Proof.
  refine (inj_countable'
            (fun f => match f with HighDepth => 0%nat | IndelBCNoise => 1%nat | QSI_ref => 2%nat end)
            (fun n => match n with 0%nat => HighDepth | 1%nat => IndelBCNoise | _ => QSI_ref end)
            _).
  intros []; reflexivity.
Defined.

(** Modelled from the spec: [strelka_shared_modifiers] is declared outside
    this file; it holds the filter flags of one record, "a set over a fixed
    enumeration", "accumulated, never removed". [set_filter] adds a flag and
    [write_filters], below, prints the set. *)
Record strelka_shared_modifiers : Type := {
  filters : gset STRELKA_VCF_FILTERS
}.

Definition smod_init : strelka_shared_modifiers := {| filters := ∅ |}.

Definition set_filter (f : STRELKA_VCF_FILTERS) (smod : strelka_shared_modifiers)
  : strelka_shared_modifiers :=
  {| filters := {[ f ]} ∪ filters smod |}.

(** ** Output stream *)

Inductive floatfield : Set := defaultfloat | fixed | scientific.

(** The formatting state a floating-point insertion depends on. *)
Record fmtflags : Set := {
  fmt_floatfield : floatfield;
  fmt_precision : Z
}.

(** The state of a freshly opened stream. *)
Definition fmt_default : fmtflags :=
  {| fmt_floatfield := defaultfloat; fmt_precision := 6 |}.

(** One insertion into the stream. *)
Inductive token : Type :=
| TLit (s : string)                      (** a string or character literal of the source *)
| TStr (s : string)                      (** the contents of a [std::string] *)
| TInt (z : Z)                           (** an integer *)
| TReal (fmt : fmtflags) (x : spec_float) (** a [float] or [double], under [fmt] *)
| TLabel (nt : NTYPE)                    (** [NTYPE::label(nt)] *)
| TFilters (fs : gset STRELKA_VCF_FILTERS) (** what [write_filters] prints for [fs] *).

Record ostream : Type := {
  os_out : list token;
  os_fmt : fmtflags
}.

Definition emit (t : token) (os : ostream) : ostream :=
  {| os_out := os_out os ++ [t]; os_fmt := os_fmt os |}.

Definition lit (s : string) : ostream -> ostream := emit (TLit s).
Definition str (s : string) : ostream -> ostream := emit (TStr s).
Definition int (z : Z) : ostream -> ostream := emit (TInt z).
Definition real (x : spec_float) (os : ostream) : ostream := emit (TReal (os_fmt os) x) os.

(** [std::fixed] *)
Definition std_fixed (os : ostream) : ostream :=
  {| os_out := os_out os;
     os_fmt := {| fmt_floatfield := fixed; fmt_precision := fmt_precision (os_fmt os) |} |}.

(** [std::setprecision(n)] *)
Definition std_setprecision (n : Z) (os : ostream) : ostream :=
  {| os_out := os_out os;
     os_fmt := {| fmt_floatfield := fmt_floatfield (os_fmt os); fmt_precision := n |} |}.

(** [StreamScoper] is declared in [blt_util/io_util.hh], outside this
    file; it is taken to restore, when it goes out of scope, the formatting
    state the stream had when the scoper was constructed. *)
Definition StreamScoper_restore (saved : fmtflags) (os : ostream) : ostream :=
  {| os_out := os_out os; os_fmt := saved |}.

(** [smod.write_filters(os)]: one insertion, determined by the filter
    set. *)
Definition write_filters (smod : strelka_shared_modifiers) : ostream -> ostream :=
  emit (TFilters (filters smod)).

(** [os << a << b] *)
Notation "os << f" := (f os) (at level 40, left associativity, only parsing).

Definition tab : string := String (ascii_of_nat 9) EmptyString.
Definition newline : string := String (ascii_of_nat 10) EmptyString.

(** ** Formatters *)

Section Formatters.
Context `{Collaborators}.

Definition write_vcf_isri_tiers
    (isri1 isri2 : starling_indel_sample_report_info)
    (was : win_avg_set) (os : ostream) : ostream :=
  let sep := ":"%string in
  let os :=
    os << int (depth isri1)
       << lit sep
       << int (depth isri2)
       << lit sep
       << int (Int32.wrap (n_q30_ref_reads isri1 + n_q30_alt_reads isri1)) << lit ","
       << int (Int32.wrap (n_q30_ref_reads isri2 + n_q30_alt_reads isri2))
       << lit sep
       << int (n_q30_indel_reads isri1) << lit ","
       << int (n_q30_indel_reads isri2)
       << lit sep
       << int (n_other_reads isri1) << lit ","
       << int (n_other_reads isri2) in
  let used := avg (ss_used_win was) in
  let filt := avg (ss_filt_win was) in
  let submap := avg (ss_submap_win was) in
  (* const StreamScoper ss(os); *)
  let saved := os_fmt os in
  let os := os << std_fixed << std_setprecision 2 in
  let os :=
    os << lit sep << real (IEEE.float_add used filt)
       << lit sep << real filt
       << lit sep << real submap
       << lit sep << real (calculateIndelAF isri1) << lit "," << real (calculateIndelAF isri2)
       << lit sep << real (calculateSOR isri1) << lit "," << real (calculateSOR isri2)
       << lit sep << real (calculateFS isri1) << lit "," << real (calculateFS isri2)
       << lit sep << real (get_u_stat (readpos_ranksum isri1))
                  << lit "," << real (get_u_stat (readpos_ranksum isri2))
       << lit sep << real (mean_mapq isri1) << lit "," << real (mean_mapq isri2)
       << lit sep << real (mapq0_frac isri1) << lit "," << real (mapq0_frac isri2) in
  StreamScoper_restore saved os.

(** [pos_t] positions are integers; [pos+1] is taken without overflow.
    The two tier indices are [unsigned]. *)
Definition writeSomaticIndelVcfGrid
    (opt : strelka_options) (dopt : strelka_deriv_options) (pos : Z)
    (siInfo : SomaticIndelVcfInfo) (wasNormal wasTumor : win_avg_set)
    (os : ostream) : result ostream :=
  let rs := rs (sindel siInfo) in
  let smod := smod_init in
  (* compute all site filters: *)
  let smod :=
    if is_max_depth (dsfilter dopt)
    then
      let depth := depth (fst (nisri siInfo)) in
      if IEEE.gtb (IEEE.double_of_Z depth) (max_depth (dsfilter dopt))
      then set_filter HighDepth smod
      else smod
    else smod in
  normalFilt ← IEEE.to_int (avg (ss_filt_win wasNormal));
  normalUsed ← IEEE.to_int (avg (ss_used_win wasNormal));
  normalSum ← IEEE.int_add normalFilt normalUsed;
  let normalWinFrac := IEEE.float_of_double (safeFrac normalFilt normalSum) in
  tumorFilt ← IEEE.to_int (avg (ss_filt_win wasTumor));
  tumorUsed ← IEEE.to_int (avg (ss_used_win wasTumor));
  tumorSum ← IEEE.int_add tumorFilt tumorUsed;
  let tumorWinFrac := IEEE.float_of_double (safeFrac tumorFilt tumorSum) in
  let smod :=
    if IEEE.geb (IEEE.double_of_float normalWinFrac)
                (indelMaxWindowFilteredBasecallFrac (sfilter opt))
       || IEEE.geb (IEEE.double_of_float tumorWinFrac)
                   (indelMaxWindowFilteredBasecallFrac (sfilter opt))
    then set_filter IndelBCNoise smod
    else smod in
  let smod :=
    if negb (bool_decide (ntype rs = REF))
       || (sindel_from_ntype_qphred rs <? sindelQuality_LowerBound (sfilter opt))
    then set_filter QSI_ref smod
    else smod in
  let output_pos := pos + 1 in
  let sep := tab in
  (* CHROM *)
  let os := os << str (bam_seq_name opt) in
  (* POS+ *)
  let os := os << lit sep << int output_pos in
  (* ID *)
  let os := os << lit sep << lit "." in
  (* REF/ALT *)
  let os := os << lit sep << str (vcf_ref_seq (iri siInfo))
               << lit sep << str (vcf_indel_seq (iri siInfo)) in
  (* QUAL *)
  let os := os << lit sep << lit "." in
  (* FILTER *)
  let os := os << lit sep in
  let os := os << write_filters smod in
  (* INFO *)
  let os :=
    os << lit sep
       << lit "SOMATIC"
       << lit ";QSI=" << int (sindel_qphred rs)
       << lit ";TQSI=" << int (Int32.wrap (sindel_tier (sindel siInfo) + 1))
       << lit ";NT=" << emit (TLabel (ntype rs))
       << lit ";QSI_NT=" << int (sindel_from_ntype_qphred rs)
       << lit ";TQSI_NT=" << int (Int32.wrap (sindel_from_ntype_tier (sindel siInfo) + 1))
       << lit ";SGT=" << int (max_gt rs) in
  let os :=
    if is_repeat_unit (iri siInfo)
    then os << lit ";RU=" << str (repeat_unit (iri siInfo))
            << lit ";RC=" << int (ref_repeat_count (iri siInfo))
            << lit ";IC=" << int (indel_repeat_count (iri siInfo))
    else os in
  let os := os << lit ";IHP=" << int (ihpol (iri siInfo)) in
  let os :=
    if bool_decide (it (iri siInfo) = BP_LEFT) || bool_decide (it (iri siInfo) = BP_RIGHT)
    then os << lit ";SVTYPE=BND"
    else os in
  let os := if is_overlap rs then os << lit ";OVERLAP" else os in
  (* FORMAT *)
  let os := os << lit sep << lit "DP:DP2:TAR:TIR:TOR:DP50:FDP50:SUBDP50:AF:SOR:FS:RR:MQ:MQ0" in
  (* write normal sample info: *)
  let os := os << lit sep in
  let os := write_vcf_isri_tiers (fst (nisri siInfo)) (snd (nisri siInfo)) wasNormal os in
  (* write tumor sample info: *)
  let os := os << lit sep in
  let os := write_vcf_isri_tiers (fst (tisri siInfo)) (snd (tisri siInfo)) wasTumor os in
  mret (os << lit newline).

End Formatters.

(** ** The per-position buffer *)

(** Modelled from the spec: the members of [SomaticIndelVcfWriter] are
    declared in [SomaticIndelVcfWriter.hh], which is not part of the
    sources. They are the options, the output stream behind [_osptr] and
    [_data], the "mapping from integer genomic position to an ordered
    sequence of Candidate". *)
Record SomaticIndelVcfWriter : Type := {
  _opt : strelka_options;
  _dopt : strelka_deriv_options;
  _osptr : ostream;
  _data : gmap Z (list SomaticIndelVcfInfo)
}.

(** Modelled from the spec: [testPos] is declared in
    [SomaticIndelVcfWriter.hh], which is not part of the sources; it is the
    existence check [hasPending(position)] of the buffer. *)
Definition testPos (pos : Z) (w : SomaticIndelVcfWriter) : bool :=
  bool_decide (is_Some (_data w !! pos)).

(** [_data[pos].push_back(siInfo)]: [operator[]] creates an empty entry
    when [pos] has none. The check for a second indel at one site is
    compiled out ([#if 0]). *)
Definition cacheIndel (pos : Z) (siInfo : SomaticIndelVcfInfo)
    (w : SomaticIndelVcfWriter) : SomaticIndelVcfWriter :=
  {| _opt := _opt w; _dopt := _dopt w; _osptr := _osptr w;
     _data := <[ pos := default [] (_data w !! pos) ++ [siInfo] ]> (_data w) |}.

Section Flush.
Context `{Collaborators}.

(** The range-[for] over [_data[pos]]. *)
Fixpoint write_each (opt : strelka_options) (dopt : strelka_deriv_options) (pos : Z)
    (indels : list SomaticIndelVcfInfo) (wasNormal wasTumor : win_avg_set)
    (os : ostream) : result ostream :=
  match indels with
  | [] => mret os
  | indelInfo :: rest =>
      os' ← writeSomaticIndelVcfGrid opt dopt pos indelInfo wasNormal wasTumor os;
      write_each opt dopt pos rest wasNormal wasTumor os'
  end.

Definition addIndelWindowData (pos : Z) (wasNormal wasTumor : win_avg_set)
    (w : SomaticIndelVcfWriter) : result SomaticIndelVcfWriter :=
  if testPos pos w
  then
    os' ← write_each (_opt w) (_dopt w) pos (default [] (_data w !! pos))
                     wasNormal wasTumor (_osptr w);
    mret {| _opt := _opt w; _dopt := _dopt w; _osptr := os';
            _data := delete pos (_data w) |}
  else Fail AssertionFailed.

End Flush.

(** ** Observations on the output *)

(** A stream nothing has been written to. *)
Definition empty_stream : ostream := {| os_out := []; os_fmt := fmt_default |}.

(** Appending tokens to a stream, its formatting state unchanged. *)
Definition append (ts : list token) (os : ostream) : ostream :=
  {| os_out := os_out os ++ ts; os_fmt := os_fmt os |}.

Section Observations.
Context `{Collaborators}.

(** One sample column, as written to a fresh stream. *)
Definition sample_column (isri1 isri2 : starling_indel_sample_report_info)
    (was : win_avg_set) : list token :=
  os_out (write_vcf_isri_tiers isri1 isri2 was empty_stream).

(** One record, as written to a fresh stream. *)
Definition vcf_record (opt : strelka_options) (dopt : strelka_deriv_options) (pos : Z)
    (siInfo : SomaticIndelVcfInfo) (wasNormal wasTumor : win_avg_set)
  : result (list token) :=
  os ← writeSomaticIndelVcfGrid opt dopt pos siInfo wasNormal wasTumor empty_stream;
  mret (os_out os).

(** The tail of a record: both sample columns and the end of line. *)
Definition record_tail (siInfo : SomaticIndelVcfInfo) (wasNormal wasTumor : win_avg_set)
  : list token :=
  ((sample_column (fst (nisri siInfo)) (snd (nisri siInfo)) wasNormal ++ [TLit tab])
     ++ sample_column (fst (tisri siInfo)) (snd (tisri siInfo)) wasTumor)
    ++ [TLit newline].

End Observations.

(** The repeat-unit fields of the annotation block. *)
Definition repeat_unit_fields (iri : starling_indel_report_info) : list token :=
  [ TLit ";RU="; TStr (repeat_unit iri);
    TLit ";RC="; TInt (ref_repeat_count iri);
    TLit ";IC="; TInt (indel_repeat_count iri) ].

(** The keys of the repeat-unit fields. *)
Definition repeat_unit_keys : list string := [ ";RU="; ";RC="; ";IC=" ]%string.


(** The filter sets printed in a run of tokens. *)
Definition filter_fields (ts : list token) : list (gset STRELKA_VCF_FILTERS) :=
  omap (fun t => match t with TFilters fs => Some fs | _ => None end) ts.

(** The floating-point insertions of a run of tokens, each with the
    formatting state it was made under. *)
Definition reals_of (ts : list token) : list (fmtflags * spec_float) :=
  omap (fun t => match t with TReal fmt x => Some (fmt, x) | _ => None end) ts.

Definition is_lit (s : string) (t : token) : bool :=
  match t with TLit s' => String.eqb s s' | _ => false end.

(** Whether the literal [s] of the source was written. *)
Definition has_lit (s : string) (ts : list token) : bool := existsb (is_lit s) ts.

(** How many times the literal [s] of the source was written. *)
Definition count_lit (s : string) (ts : list token) : nat :=
  length (List.filter (is_lit s) ts).

(** [std::fixed << std::setprecision(2)] *)
Definition fixed2 : fmtflags := {| fmt_floatfield := fixed; fmt_precision := 2 |}.

(** The conversions of a window's averages to [int], and their sum, are
    defined. *)
Definition window_ints_defined (was : win_avg_set) : Prop :=
  exists filt used : Z,
    IEEE.to_int (avg (ss_filt_win was)) = Ok filt /\
    IEEE.to_int (avg (ss_used_win was)) = Ok used /\
    Int32.in_int_range (filt + used) = true.

(** ** Sequences of cache calls *)

(** The candidates pending at [pos]. *)
Definition pending (pos : Z) (w : SomaticIndelVcfWriter) : list SomaticIndelVcfInfo :=
  default [] (_data w !! pos).

(** A run of [cacheIndel] calls, first call first. *)
Definition cache_all (ops : list (Z * SomaticIndelVcfInfo)) (w : SomaticIndelVcfWriter)
  : SomaticIndelVcfWriter :=
  foldl (fun w op => cacheIndel (fst op) (snd op) w) w ops.

(** The candidates that a run of calls caches at [pos], in call order. *)
Definition cached_at (pos : Z) (ops : list (Z * SomaticIndelVcfInfo))
  : list SomaticIndelVcfInfo :=
  omap (fun op => if bool_decide (fst op = pos) then Some (snd op) else None) ops.

(** ** The annotations and filters as the specification words them *)

(** Allele fraction: indel reads over reference, alt and indel reads, and
    [0] when that total is [0]. *)
Definition spec_alleleFraction (isri : starling_indel_sample_report_info) : spec_float :=
  let total := n_q30_ref_reads isri + n_q30_alt_reads isri + n_q30_indel_reads isri in
  if total =? 0
  then IEEE.zero
  else IEEE.double_div (IEEE.double_of_Z (n_q30_indel_reads isri)) (IEEE.double_of_Z total).

(** Strand odds ratio: the cross-products are exact integers. *)
Definition spec_strandOddsRatio `{Collaborators}
    (isri : starling_indel_sample_report_info) : spec_float :=
  let num := n_q30_ref_reads_fwd isri * n_q30_indel_reads_rev isri in
  let denom := n_q30_ref_reads_rev isri * n_q30_indel_reads_fwd isri in
  if denom =? 0
  then IEEE.infinity
  else log10 (IEEE.double_div (IEEE.double_of_Z num) (IEEE.double_of_Z denom)).

(** Filtered fraction of a window: the filtered average over the sum of the
    filtered and used averages, and [0] when that sum is [0]. *)
Definition spec_filteredFraction (was : win_avg_set) : spec_float :=
  let filteredAvg := avg (ss_filt_win was) in
  let usedAvg := avg (ss_used_win was) in
  let denom := IEEE.float_add filteredAvg usedAvg in
  if SFeqb denom IEEE.zero then IEEE.zero else IEEE.float_div filteredAvg denom.

Definition spec_IndelBasecallNoise (opt : strelka_options) (wasNormal wasTumor : win_avg_set)
  : bool :=
  IEEE.geb (IEEE.double_of_float (spec_filteredFraction wasNormal))
           (indelMaxWindowFilteredBasecallFrac (sfilter opt))
  || IEEE.geb (IEEE.double_of_float (spec_filteredFraction wasTumor))
              (indelMaxWindowFilteredBasecallFrac (sfilter opt)).

(** The floating-point fields of a sample column with only the three
    window fields in fixed two-decimal notation, the others under the
    formatting state [fmt] the stream was in. *)
Definition spec_sample_column_reals `{Collaborators} (fmt : fmtflags)
    (isri1 isri2 : starling_indel_sample_report_info) (was : win_avg_set)
  : list (fmtflags * spec_float) :=
  map (pair fixed2)
    [ IEEE.float_add (avg (ss_used_win was)) (avg (ss_filt_win was));
      avg (ss_filt_win was);
      avg (ss_submap_win was) ]
  ++ map (pair fmt)
    [ calculateIndelAF isri1; calculateIndelAF isri2;
      calculateSOR isri1; calculateSOR isri2;
      calculateFS isri1; calculateFS isri2;
      get_u_stat (readpos_ranksum isri1); get_u_stat (readpos_ranksum isri2);
      mean_mapq isri1; mean_mapq isri2;
      mapq0_frac isri1; mapq0_frac isri2 ].

(** ** Concrete inputs *)

Module Sample.

(** Stand-ins for the collaborators, used where an input must be closed. *)
Definition collaborators : Collaborators :=
  {| log10 := fun x => x;
     error_prob_to_phred := fun x => x;
     fisher_exact_test_pval_2x2 := fun _ _ _ _ => IEEE.zero |}.

(** An evidence record from its counts: reference, indel, alt reads, the
    four strand counts and the depth. *)
Definition evidence (r i a rf rr ifw irv d : Z) : starling_indel_sample_report_info :=
  {| n_q30_ref_reads := r; n_q30_indel_reads := i; n_q30_alt_reads := a;
     n_other_reads := 0;
     n_q30_ref_reads_fwd := rf; n_q30_ref_reads_rev := rr;
     n_q30_indel_reads_fwd := ifw; n_q30_indel_reads_rev := irv;
     depth := d;
     readpos_ranksum := {| get_u_stat := IEEE.zero |};
     mean_mapq := IEEE.double_of_Z 60; mapq0_frac := IEEE.zero |}.

(** A window from its used, filtered and submapped averages. *)
Definition window (used filt submap : spec_float) : win_avg_set :=
  {| ss_used_win := {| avg := used |};
     ss_filt_win := {| avg := filt |};
     ss_submap_win := {| avg := submap |} |}.

(** The [float] 0.5 *)
Definition half : spec_float := IEEE.float_div (IEEE.float_of_Z 1) (IEEE.float_of_Z 2).

(** The [double] nearest to 0.3 *)
Definition three_tenths : spec_float :=
  IEEE.double_div (IEEE.double_of_Z 3) (IEEE.double_of_Z 10).

Definition quiet_window : win_avg_set :=
  window (IEEE.float_of_Z 30) IEEE.zero IEEE.zero.

Definition half_window : win_avg_set := window half half IEEE.zero.

(** One filtered basecall to thirty used ones, on average. *)
Definition light_window : win_avg_set :=
  window (IEEE.float_of_Z 30) (IEEE.float_of_Z 1) IEEE.zero.

(** Ten filtered basecalls to twenty used ones, on average. *)
Definition noisy_window : win_avg_set :=
  window (IEEE.float_of_Z 20) (IEEE.float_of_Z 10) IEEE.zero.

(** A candidate from its normal genotype, NT-relative quality, repeat-unit
    flag and tier-1 normal depth. *)
Definition candidate (nt : NTYPE) (qsi_nt : Z) (ru : bool) (d : Z) : SomaticIndelVcfInfo :=
  {| sindel := {| rs := {| ntype := nt; sindel_qphred := 40;
                           sindel_from_ntype_qphred := qsi_nt;
                           max_gt := 1; is_overlap := false |};
                  sindel_tier := 0; sindel_from_ntype_tier := 0 |};
     iri := {| vcf_ref_seq := "CA"; vcf_indel_seq := "C";
               is_repeat_unit := ru; repeat_unit := "A";
               ref_repeat_count := 3; indel_repeat_count := 2;
               ihpol := 3; it := DELETE |};
     nisri := (evidence 20 0 0 10 10 0 0 d, evidence 20 0 0 10 10 0 0 d);
     tisri := (evidence 20 5 1 10 10 2 3 30, evidence 20 5 1 10 10 2 3 30) |}.

Definition options : strelka_options :=
  {| bam_seq_name := "chr1";
     sfilter := {| indelMaxWindowFilteredBasecallFrac := three_tenths;
                   sindelQuality_LowerBound := 30 |} |}.

(** Derived options with the max-depth threshold [100]. *)
Definition deriv_options : strelka_deriv_options :=
  {| dsfilter := {| is_max_depth := true; max_depth := IEEE.double_of_Z 100 |} |}.

Definition writer (data : gmap Z (list SomaticIndelVcfInfo)) : SomaticIndelVcfWriter :=
  {| _opt := options; _dopt := deriv_options; _osptr := empty_stream; _data := data |}.

End Sample.

(** ** The layout of a record *)

(** The [FORMAT] column. *)
Definition format_keys : string :=
  "DP:DP2:TAR:TIR:TOR:DP50:FDP50:SUBDP50:AF:SOR:FS:RR:MQ:MQ0".

(** How many times the character [c] occurs in [s]. *)
Definition count_char (c : ascii) (s : string) : nat :=
  length (List.filter (Ascii.eqb c) (list_ascii_of_string s)).

(** The literals a record holds once whatever the candidate. *)
Definition mandatory_keys : list string :=
  [ "SOMATIC"; ";QSI="; ";TQSI="; ";NT="; ";QSI_NT="; ";TQSI_NT="; ";SGT="; ";IHP=";
    format_keys ]%string.

(** The test that guards [;SVTYPE=BND]. *)
Definition is_breakend (t : INDEL) : bool :=
  bool_decide (t = BP_LEFT) || bool_decide (t = BP_RIGHT).

(** The annotation block: the keys every record has, and between them the
    optional repeat-unit fields, breakend marker and overlap marker. *)
Definition info_block (siInfo : SomaticIndelVcfInfo) : list token :=
  [ TLit "SOMATIC";
    TLit ";QSI="; TInt (sindel_qphred (rs (sindel siInfo)));
    TLit ";TQSI="; TInt (Int32.wrap (sindel_tier (sindel siInfo) + 1));
    TLit ";NT="; TLabel (ntype (rs (sindel siInfo)));
    TLit ";QSI_NT="; TInt (sindel_from_ntype_qphred (rs (sindel siInfo)));
    TLit ";TQSI_NT="; TInt (Int32.wrap (sindel_from_ntype_tier (sindel siInfo) + 1));
    TLit ";SGT="; TInt (max_gt (rs (sindel siInfo))) ]
  ++ (if is_repeat_unit (iri siInfo) then repeat_unit_fields (iri siInfo) else [])
  ++ [ TLit ";IHP="; TInt (ihpol (iri siInfo)) ]
  ++ (if is_breakend (it (iri siInfo)) then [ TLit ";SVTYPE=BND" ] else [])
  ++ (if is_overlap (rs (sindel siInfo)) then [ TLit ";OVERLAP" ] else []).

(** The columns of a record before the two sample columns, for the filter
    set [fs]. *)
Definition record_head (opt : strelka_options) (pos : Z) (siInfo : SomaticIndelVcfInfo)
    (fs : gset STRELKA_VCF_FILTERS) : list token :=
  [ TStr (bam_seq_name opt); TLit tab;
    TInt (pos + 1); TLit tab;
    TLit "."; TLit tab;
    TStr (vcf_ref_seq (iri siInfo)); TLit tab;
    TStr (vcf_indel_seq (iri siInfo)); TLit tab;
    TLit "."; TLit tab;
    TFilters fs; TLit tab ]
  ++ info_block siInfo
  ++ [ TLit tab; TLit format_keys; TLit tab ].

(** ** Histories of calls *)

(** A call of the pipeline on the writer. *)
Inductive call : Type :=
| Cache (pos : Z) (siInfo : SomaticIndelVcfInfo)
| Flush (pos : Z) (wasNormal wasTumor : win_avg_set).

(** The calls of a history made one after the other, first call first; a
    failing flush ends the run. *)
Fixpoint run `{Collaborators} (calls : list call) (w : SomaticIndelVcfWriter)
  : result SomaticIndelVcfWriter :=
  match calls with
  | [] => mret w
  | Cache pos siInfo :: rest => run rest (cacheIndel pos siInfo w)
  | Flush pos wasNormal wasTumor :: rest =>
      w' ← addIndelWindowData pos wasNormal wasTumor w;
      run rest w'
  end.

(** What a history leaves at [p], from the entry [entry] it starts with:
    the candidates cached at [p] since the last flush of [p], in call
    order, and no entry when there has been a flush of [p] and no call of
    [cacheIndel] at [p] since. *)
Fixpoint history (calls : list call) (p : Z) (entry : option (list SomaticIndelVcfInfo))
  : option (list SomaticIndelVcfInfo) :=
  match calls with
  | [] => entry
  | Cache pos siInfo :: rest =>
      history rest p
        (if bool_decide (pos = p) then Some (default [] entry ++ [siInfo]) else entry)
  | Flush pos _ _ :: rest =>
      history rest p (if bool_decide (pos = p) then None else entry)
  end.

(** The number of candidates the buffer holds, over all positions. *)
Definition pending_total (w : SomaticIndelVcfWriter) : nat :=
  map_fold (fun (_ : Z) (indels : list SomaticIndelVcfInfo) (n : nat) =>
              (length indels + n)%nat)
           0%nat (_data w).


(** The records written so far: the ends of line in the stream. *)
Definition records_written (w : SomaticIndelVcfWriter) : nat :=
  count_lit newline (os_out (_osptr w)).

(** No position of the buffer holds an empty list. *)
Definition entries_nonempty (w : SomaticIndelVcfWriter) : Prop :=
  forall (pos : Z) (indels : list SomaticIndelVcfInfo),
    _data w !! pos = Some indels -> indels <> [].

(** ** Integers as [double] values *)

Lemma digits2_pos_size p : digits2_pos p = Pos.size p.
Proof. induction p; cbn; congruence. Qed.

Lemma digits2_pos_bounds p :
  2 ^ (Zpos (digits2_pos p) - 1) <= Zpos p < 2 ^ Zpos (digits2_pos p).
Proof.
  rewrite digits2_pos_size.
  pose proof (Pos.size_gt p) as Hgt. pose proof (Pos.size_le p) as Hle.
  apply Pos2Z.pos_lt_pos in Hgt. apply Pos2Z.pos_le_pos in Hle.
  rewrite Pos2Z.inj_pow in Hgt, Hle.
  rewrite (Pos2Z.inj_xO p) in Hle.
  assert (Hpow : 2 ^ Z.pos (Pos.size p) = 2 * 2 ^ (Z.pos (Pos.size p) - 1)).
  { rewrite <- Z.pow_succ_r by lia. f_equal. lia. }
  rewrite Hpow in Hle. lia.
Qed.

Lemma iter_xO_Z p k : Zpos (Pos.iter xO p k) = Zpos p * 2 ^ Zpos k.
Proof.
  induction k as [|k IH] using Pos.peano_ind.
  - cbn [Pos.iter]. lia.
  - rewrite Pos.iter_succ, Pos2Z.inj_xO, IH, Pos2Z.inj_succ, Z.pow_succ_r by lia. lia.
Qed.

Lemma digits2_pos_iter_xO p k :
  digits2_pos (Pos.iter xO p k) = (digits2_pos p + k)%positive.
Proof.
  induction k as [|k IH] using Pos.peano_ind.
  - cbn. lia.
  - rewrite Pos.iter_succ. cbn [digits2_pos]. rewrite IH. lia.
Qed.

(** An integer below [2^53] converts to [double] exactly: the mantissa is the
    integer shifted to 53 digits. *)
Lemma double_of_Z_pos p :
  Zpos p < 2 ^ 53 ->
  exists m : positive,
    IEEE.double_of_Z (Zpos p) = S754_finite false m (Zpos (digits2_pos p) - 53) /\
    Zpos m = Zpos p * 2 ^ (53 - Zpos (digits2_pos p)) /\
    Zpos (digits2_pos p) <= 53.
Proof.
  intros Hlt.
  pose proof (digits2_pos_bounds p) as [Hlo _].
  assert (Hd : Zpos (digits2_pos p) <= 53).
  { destruct (Z_le_gt_dec (Zpos (digits2_pos p)) 53) as [|Hgt]; [assumption|].
    assert (2 ^ 53 <= 2 ^ (Zpos (digits2_pos p) - 1)) by (apply Z.pow_le_mono_r; lia).
    lia. }
  unfold IEEE.double_of_Z, binary_normalize, binary_round.
  set (d := Zpos (digits2_pos p)) in *.
  assert (Hfexp : fexp IEEE.double_prec IEEE.double_emax (d + 0) = d - 53).
  { unfold fexp, emin, IEEE.double_prec, IEEE.double_emax. lia. }
  rewrite Hfexp.
  assert (Hal : exists m, shl_align p 0 (d - 53) = (m, d - 53) /\
                          Zpos m = Zpos p * 2 ^ (53 - d) /\
                          Zpos (digits2_pos m) = 53).
  { unfold shl_align. destruct (d - 53 - 0) as [|k|k] eqn:Hk; try lia.
    - exists p. replace (d - 53) with 0 by lia. replace (53 - d) with 0 by lia.
      repeat split; subst d; lia.
    - exists (Pos.iter xO p k). repeat split.
      + rewrite iter_xO_Z. do 2 f_equal. lia.
      + rewrite digits2_pos_iter_xO. subst d. lia. }
  destruct Hal as (m & -> & Hm & Hdm).
  exists m. split; [|split; [exact Hm|exact Hd]].
  unfold binary_round_aux, shr_fexp, Zdigits2.
  rewrite Hdm.
  assert (Hfexp' : fexp IEEE.double_prec IEEE.double_emax (53 + (d - 53)) - (d - 53) = 0).
  { unfold fexp, emin, IEEE.double_prec, IEEE.double_emax. subst d. lia. }
  rewrite Hfexp'. cbn [shr shr_record_of_loc loc_of_shr_record shr_m round_nearest_even].
  unfold Zdigits2. rewrite Hdm, Hfexp'. cbn [shr shr_record_of_loc shr_m].
  replace (d - 53 <=? IEEE.double_emax - IEEE.double_prec) with true; [reflexivity|].
  symmetry. apply Z.leb_le. unfold IEEE.double_emax, IEEE.double_prec. lia.
Qed.

Lemma double_of_Z_compare a b :
  0 <= a < 2 ^ 53 -> 0 <= b < 2 ^ 53 ->
  SFcompare (IEEE.double_of_Z a) (IEEE.double_of_Z b) = Some (a ?= b).
Proof.
  intros Ha Hb.
  destruct a as [|p|p]; [| |lia]; destruct b as [|q|q]; try lia.
  - reflexivity.
  - destruct (double_of_Z_pos q) as (m & -> & _); [lia|]. reflexivity.
  - destruct (double_of_Z_pos p) as (m & -> & _); [lia|]. reflexivity.
  - destruct (double_of_Z_pos p) as (m & -> & Hm & Hdp); [lia|].
    destruct (double_of_Z_pos q) as (n & -> & Hn & Hdq); [lia|].
    cbn [SFcompare]. f_equal.
    pose proof (digits2_pos_bounds p) as [Hp1 Hp2].
    pose proof (digits2_pos_bounds q) as [Hq1 Hq2].
    set (dp := Zpos (digits2_pos p)) in *. set (dq := Zpos (digits2_pos q)) in *.
    destruct (Z.compare_spec (dp - 53) (dq - 53)) as [Heq|Hlt|Hgt].
    + assert (dp = dq) as Hd by lia. rewrite Hd in Hm.
      change (Pos.compare_cont Eq m n) with (Zpos m ?= Zpos n).
      rewrite Hm, Hn. symmetry. apply Zmult_compare_compat_r.
      apply Z.lt_gt, Z.pow_pos_nonneg; lia.
    + symmetry. apply Z.compare_lt_iff.
      assert (2 ^ dp <= 2 ^ (dq - 1)) by (apply Z.pow_le_mono_r; lia). lia.
    + symmetry. apply Z.compare_gt_iff.
      assert (2 ^ dq <= 2 ^ (dp - 1)) by (apply Z.pow_le_mono_r; lia). lia.
Qed.

Lemma gtb_double_of_Z a b :
  0 <= a < 2 ^ 53 -> 0 <= b < 2 ^ 53 ->
  IEEE.gtb (IEEE.double_of_Z a) (IEEE.double_of_Z b) = (b <? a).
Proof.
  intros Ha Hb. unfold IEEE.gtb, SFltb.
  rewrite (double_of_Z_compare b a Hb Ha). unfold Z.ltb. reflexivity.
Qed.

(** ** The promotion of [float] to [double] *)

(** The promotion of a [float] is exact: the mantissa is shifted to 53
    digits and the exponent lowered by as much. *)
Lemma double_of_float_exact s m e :
  Zpos (digits2_pos m) <= 24 -> -149 <= e <= 104 ->
  exists m' : positive,
    IEEE.double_of_float (S754_finite s m e)
      = S754_finite s m' (Zpos (digits2_pos m) + e - 53) /\
    Zpos m' = Zpos m * 2 ^ (53 - Zpos (digits2_pos m)) /\
    Zpos (digits2_pos m') = 53.
Proof.
  intros Hd He.
  unfold IEEE.double_of_float, binary_round.
  set (d := Zpos (digits2_pos m)) in *.
  assert (Hd1 : 1 <= d) by (subst d; lia).
  assert (Hfexp : fexp IEEE.double_prec IEEE.double_emax (d + e) = d + e - 53).
  { unfold fexp, emin, IEEE.double_prec, IEEE.double_emax. lia. }
  rewrite Hfexp.
  assert (Hal : exists m', shl_align m e (d + e - 53) = (m', d + e - 53) /\
                           Zpos m' = Zpos m * 2 ^ (53 - d) /\
                           Zpos (digits2_pos m') = 53).
  { unfold shl_align. destruct (d + e - 53 - e) as [|k|k] eqn:Hk; try lia.
    exists (Pos.iter xO m k). repeat split.
    - rewrite iter_xO_Z. do 2 f_equal. lia.
    - rewrite digits2_pos_iter_xO. subst d. lia. }
  destruct Hal as (m' & -> & Hm & Hdm).
  exists m'. split; [|split; [exact Hm|exact Hdm]].
  unfold binary_round_aux, shr_fexp, Zdigits2.
  rewrite Hdm.
  assert (Hfexp' : fexp IEEE.double_prec IEEE.double_emax (53 + (d + e - 53))
                   - (d + e - 53) = 0).
  { unfold fexp, emin, IEEE.double_prec, IEEE.double_emax. lia. }
  rewrite Hfexp'. cbn [shr shr_record_of_loc loc_of_shr_record shr_m round_nearest_even].
  unfold Zdigits2. rewrite Hdm, Hfexp'. cbn [shr shr_record_of_loc shr_m].
  replace (d + e - 53 <=? IEEE.double_emax - IEEE.double_prec) with true; [reflexivity|].
  symmetry. apply Z.leb_le. unfold IEEE.double_emax, IEEE.double_prec. lia.
Qed.

Lemma digits53_bounds m : Zpos (digits2_pos m) = 53 -> 2 ^ 52 <= Zpos m < 2 ^ 53.
Proof. intros Hd. pose proof (digits2_pos_bounds m) as Hb. rewrite Hd in Hb. exact Hb. Qed.

(** Two positive [double] values with full mantissas compare as the
    numbers they stand for, [m1 * 2^e1] and [m2 * 2^e2]. *)
Lemma SFcompare_normal m1 e1 m2 e2 :
  Zpos (digits2_pos m1) = 53 -> Zpos (digits2_pos m2) = 53 ->
  SFcompare (S754_finite false m1 e1) (S754_finite false m2 e2)
  = Some (Zpos m1 * 2 ^ (e1 - Z.min e1 e2) ?= Zpos m2 * 2 ^ (e2 - Z.min e1 e2)).
Proof.
  intros H1 H2. apply digits53_bounds in H1, H2.
  cbn [SFcompare]. f_equal.
  destruct (Z.compare_spec e1 e2) as [Heq|Hlt|Hgt].
  - subst e2. rewrite Z.min_id, Z.sub_diag. change (2 ^ 0) with 1.
    rewrite !Z.mul_1_r. reflexivity.
  - rewrite Z.min_l by lia. rewrite Z.sub_diag. change (2 ^ 0) with 1. rewrite Z.mul_1_r.
    symmetry. apply Z.compare_lt_iff.
    assert (2 ^ 1 <= 2 ^ (e2 - e1)) by (apply Z.pow_le_mono_r; lia).
    change (2 ^ 1) with 2 in *. nia.
  - rewrite Z.min_r by lia. rewrite Z.sub_diag. change (2 ^ 0) with 1. rewrite Z.mul_1_r.
    symmetry. apply Z.compare_gt_iff.
    assert (2 ^ 1 <= 2 ^ (e1 - e2)) by (apply Z.pow_le_mono_r; lia).
    change (2 ^ 1) with 2 in *. nia.
Qed.

(** The comparison of the noise filter orders by value: a positive [float]
    [m * 2^e], promoted, is at least the [double] [mt * 2^et] exactly
    when [mt * 2^et <= m * 2^e]. *)
Lemma geb_promoted_value m e mt et :
  Zpos (digits2_pos m) <= 24 -> -149 <= e <= 104 ->
  Zpos (digits2_pos mt) = 53 ->
  IEEE.geb (IEEE.double_of_float (S754_finite false m e)) (S754_finite false mt et)
  = (Zpos mt * 2 ^ (et - Z.min e et) <=? Zpos m * 2 ^ (e - Z.min e et)).
Proof.
  intros Hd He Ht.
  destruct (double_of_float_exact false m e Hd He) as (m' & -> & Hm' & Hd').
  unfold IEEE.geb, SFleb. rewrite (SFcompare_normal mt et m' _ Ht Hd').
  set (d := Zpos (digits2_pos m)) in *.
  assert (Hd1 : 1 <= d) by (subst d; lia).
  set (e' := d + e - 53). set (k := Z.min e et). set (k' := Z.min et e').
  assert (Hk : 0 <= k - k') by (subst k k' e'; lia).
  assert (Hval : Zpos m' * 2 ^ (e' - k') = Zpos m * 2 ^ (e - k) * 2 ^ (k - k')).
  { rewrite Hm', <- !Z.mul_assoc, <- !Z.pow_add_r by (subst k k' e'; lia).
    do 2 f_equal. subst e'. lia. }
  assert (Hthr : Zpos mt * 2 ^ (et - k') = Zpos mt * 2 ^ (et - k) * 2 ^ (k - k')).
  { rewrite <- !Z.mul_assoc, <- !Z.pow_add_r by (subst k k' e'; lia).
    do 2 f_equal. lia. }
  rewrite Hval, Hthr.
  rewrite <- (Zmult_compare_compat_r (Zpos mt * 2 ^ (et - k)) (Zpos m * 2 ^ (e - k))
                (2 ^ (k - k')))
    by (apply Z.lt_gt, Z.pow_pos_nonneg; lia).
  unfold Z.leb. destruct (_ ?= _); reflexivity.
Qed.

(** ** Rounding never gives NaN *)

Lemma shr_1_nonneg mrs : 0 <= shr_m mrs -> 0 <= shr_m (shr_1 mrs).
Proof.
  destruct mrs as [m r s]. cbn [shr_m]. intros Hm.
  destruct m as [|[p|p|]|p]; cbn; lia.
Qed.

Lemma iter_shr_1_nonneg n : forall mrs,
  0 <= shr_m mrs -> 0 <= shr_m (SpecFloat.iter_pos shr_1 n mrs).
Proof.
  induction n as [n IH|n IH|]; intros mrs Hm; cbn [SpecFloat.iter_pos].
  - apply IH, IH, shr_1_nonneg, Hm.
  - apply IH, IH, Hm.
  - apply shr_1_nonneg, Hm.
Qed.

Lemma shr_fexp_nonneg prec emax m e l :
  0 <= m -> 0 <= shr_m (fst (shr_fexp prec emax m e l)).
Proof.
  intros Hm. unfold shr_fexp, shr.
  assert (H0 : 0 <= shr_m (shr_record_of_loc m l)).
  { destruct l as [|[]]; exact Hm. }
  destruct (fexp prec emax (Zdigits2 m + e) - e); cbn [fst]; try exact H0.
  apply iter_shr_1_nonneg, H0.
Qed.

Lemma round_nearest_even_nonneg m l : 0 <= m -> 0 <= round_nearest_even m l.
Proof.
  intros Hm. unfold round_nearest_even.
  destruct l as [|[]]; try destruct (Z.even m); lia.
Qed.

(** Rounding a non-negative mantissa never gives NaN. *)
Lemma binary_round_aux_not_nan prec emax s m e l :
  0 <= m -> binary_round_aux prec emax s m e l <> S754_nan.
Proof.
  intros Hm. unfold binary_round_aux.
  pose proof (shr_fexp_nonneg prec emax m e l Hm) as H1.
  destruct (shr_fexp prec emax m e l) as [mrs' e']. cbn [fst] in H1.
  pose proof (shr_fexp_nonneg prec emax
                (round_nearest_even (shr_m mrs') (loc_of_shr_record mrs')) e' loc_Exact
                (round_nearest_even_nonneg _ _ H1)) as H2.
  destruct (shr_fexp prec emax _ e' loc_Exact) as [mrs'' e'']. cbn [fst] in H2.
  destruct (shr_m mrs'') as [|p|p]; try lia; try discriminate.
  destruct (e'' <=? emax - prec); discriminate.
Qed.

Lemma binary_normalize_not_nan prec emax z : binary_normalize prec emax z 0 false <> S754_nan.
Proof.
  unfold binary_normalize, binary_round.
  destruct z as [|p|p]; [discriminate| |];
    destruct (shl_align _ _ _) as [mz ez]; apply binary_round_aux_not_nan; lia.
Qed.

Lemma SFdiv_finite_not_nan prec emax x s m e :
  x <> S754_nan -> SFdiv prec emax x (S754_finite s m e) <> S754_nan.
Proof.
  intros Hx. destruct x as [sx|sx| |sx mx ex]; cbn [SFdiv]; try discriminate; [congruence|].
  unfold SFdiv_core_binary.
  set (m' := match _ - _ - _ with Z0 => _ | Zpos _ => _ | Zneg _ => _ end).
  assert (Hm' : 0 <= m').
  { subst m'. destruct (_ - _ - _); try lia. apply Z.shiftl_nonneg. lia. }
  pose proof (Z_div_mod m' (Zpos m) ltac:(lia)) as Hdiv.
  destruct (Z.div_eucl m' (Z.pos m)) as [q r].
  apply binary_round_aux_not_nan.
  destruct Hdiv as [Heq Hr]. nia.
Qed.

(** ** Streams: what the formatters append *)

Ltac run_stream :=
  cbv beta iota zeta delta
    [write_vcf_isri_tiers emit lit str int real std_fixed std_setprecision
     StreamScoper_restore write_filters append empty_stream
     os_out os_fmt fmt_floatfield fmt_precision].

Section StreamLemmas.
Context `{Collaborators}.

Lemma write_vcf_isri_tiers_append isri1 isri2 was os :
  write_vcf_isri_tiers isri1 isri2 was os = append (sample_column isri1 isri2 was) os.
Proof.
  unfold sample_column. destruct os as [out fmt].
  run_stream. f_equal.
  rewrite <- !app_assoc. reflexivity.
Qed.

(** The tokens of a sample column, one by one. *)
Lemma sample_column_tokens isri1 isri2 was :
  sample_column isri1 isri2 was =
  [ TInt (depth isri1); TLit ":"; TInt (depth isri2); TLit ":";
    TInt (Int32.wrap (n_q30_ref_reads isri1 + n_q30_alt_reads isri1)); TLit ",";
    TInt (Int32.wrap (n_q30_ref_reads isri2 + n_q30_alt_reads isri2)); TLit ":";
    TInt (n_q30_indel_reads isri1); TLit ","; TInt (n_q30_indel_reads isri2); TLit ":";
    TInt (n_other_reads isri1); TLit ","; TInt (n_other_reads isri2); TLit ":";
    TReal fixed2 (IEEE.float_add (avg (ss_used_win was)) (avg (ss_filt_win was))); TLit ":";
    TReal fixed2 (avg (ss_filt_win was)); TLit ":";
    TReal fixed2 (avg (ss_submap_win was)); TLit ":";
    TReal fixed2 (calculateIndelAF isri1); TLit ",";
    TReal fixed2 (calculateIndelAF isri2); TLit ":";
    TReal fixed2 (calculateSOR isri1); TLit ",";
    TReal fixed2 (calculateSOR isri2); TLit ":";
    TReal fixed2 (calculateFS isri1); TLit ",";
    TReal fixed2 (calculateFS isri2); TLit ":";
    TReal fixed2 (get_u_stat (readpos_ranksum isri1)); TLit ",";
    TReal fixed2 (get_u_stat (readpos_ranksum isri2)); TLit ":";
    TReal fixed2 (mean_mapq isri1); TLit ",";
    TReal fixed2 (mean_mapq isri2); TLit ":";
    TReal fixed2 (mapq0_frac isri1); TLit ",";
    TReal fixed2 (mapq0_frac isri2) ].
Proof. reflexivity. Qed.

End StreamLemmas.

Ltac unfold_bind := unfold mbind, result_bind, mret, result_ret.

Ltac step_bind :=
  match goal with
  | |- context [match ?r with Ok _ => _ | Fail _ => _ end] =>
      lazymatch r with
      | IEEE.to_int _ => destruct r eqn:?
      | IEEE.int_add _ _ => destruct r eqn:?
      end
  end.

Section RecordLemmas.
Context `{Collaborators}.

Lemma writeSomaticIndelVcfGrid_append opt dopt pos siInfo wasNormal wasTumor os :
  writeSomaticIndelVcfGrid opt dopt pos siInfo wasNormal wasTumor os =
  (r ← vcf_record opt dopt pos siInfo wasNormal wasTumor; mret (append r os)).
Proof.
  unfold vcf_record, writeSomaticIndelVcfGrid. unfold_bind.
  repeat (step_bind; [ | reflexivity ]).
  rewrite !write_vcf_isri_tiers_append.
  destruct os as [out fmt].
  generalize (sample_column (nisri siInfo).1 (nisri siInfo).2 wasNormal).
  generalize (sample_column (tisri siInfo).1 (tisri siInfo).2 wasTumor).
  intros colT colN.
  destruct (is_repeat_unit (iri siInfo)),
           (bool_decide (it (iri siInfo) = BP_LEFT) || bool_decide (it (iri siInfo) = BP_RIGHT)),
           (is_overlap (rs (sindel siInfo)));
    run_stream; f_equal; f_equal; cbn [app];
    (induction out as [|t out IH]; cbn [app]; [reflexivity | f_equal; exact IH]).
Qed.

End RecordLemmas.

(** ** Anatomy of a record *)

Lemma cons_prefix {A : Type} (x : A) (l p tl : list A) :
  l = p ++ tl -> x :: l = (x :: p) ++ tl.
Proof. intros ->. reflexivity. Qed.

Ltac peel_prefix :=
  repeat (refine (cons_prefix _ _ _ _ _)); exact (eq_refl : _ = [] ++ _).

Lemma filters_of_site (c1 c2 c3 : bool) :
  let smod1 := if c1 then set_filter HighDepth smod_init else smod_init in
  let smod2 := if c2 then set_filter IndelBCNoise smod1 else smod1 in
  let smod3 := if c3 then set_filter QSI_ref smod2 else smod2 in
  (HighDepth ∈ filters smod3 <-> c1 = true) /\
  (IndelBCNoise ∈ filters smod3 <-> c2 = true) /\
  (QSI_ref ∈ filters smod3 <-> c3 = true).
Proof.
  destruct c1, c2, c3; cbn [filters set_filter smod_init];
    rewrite ?elem_of_union, ?elem_of_singleton, ?elem_of_empty;
    intuition congruence.
Qed.

Section Anatomy.
Context `{Collaborators}.

Lemma vcf_record_anatomy opt dopt pos siInfo wasNormal wasTumor
      (normalFilt normalUsed tumorFilt tumorUsed : Z) :
  IEEE.to_int (avg (ss_filt_win wasNormal)) = Ok normalFilt ->
  IEEE.to_int (avg (ss_used_win wasNormal)) = Ok normalUsed ->
  Int32.in_int_range (normalFilt + normalUsed) = true ->
  IEEE.to_int (avg (ss_filt_win wasTumor)) = Ok tumorFilt ->
  IEEE.to_int (avg (ss_used_win wasTumor)) = Ok tumorUsed ->
  Int32.in_int_range (tumorFilt + tumorUsed) = true ->
  exists (pre : list token) (fs : gset STRELKA_VCF_FILTERS),
    vcf_record opt dopt pos siInfo wasNormal wasTumor =
      Ok (pre ++ record_tail siInfo wasNormal wasTumor) /\
    filter_fields pre = [fs] /\
    (HighDepth ∈ fs <->
       is_max_depth (dsfilter dopt) = true /\
       IEEE.gtb (IEEE.double_of_Z (depth (fst (nisri siInfo))))
                (max_depth (dsfilter dopt)) = true) /\
    (IndelBCNoise ∈ fs <->
       IEEE.geb (IEEE.double_of_float
                  (IEEE.float_of_double (safeFrac normalFilt (normalFilt + normalUsed))))
                (indelMaxWindowFilteredBasecallFrac (sfilter opt)) = true \/
       IEEE.geb (IEEE.double_of_float
                  (IEEE.float_of_double (safeFrac tumorFilt (tumorFilt + tumorUsed))))
                (indelMaxWindowFilteredBasecallFrac (sfilter opt)) = true) /\
    (QSI_ref ∈ fs <->
       ntype (rs (sindel siInfo)) <> REF \/
       sindel_from_ntype_qphred (rs (sindel siInfo))
         < sindelQuality_LowerBound (sfilter opt)) /\
    has_lit ";RU=" pre = is_repeat_unit (iri siInfo) /\
    has_lit ";RC=" pre = is_repeat_unit (iri siInfo) /\
    has_lit ";IC=" pre = is_repeat_unit (iri siInfo) /\
    (is_repeat_unit (iri siInfo) = true ->
     exists a b, pre = a ++ repeat_unit_fields (iri siInfo) ++ b) /\
    count_lit newline pre = 0%nat /\
    reals_of pre = [].
Proof.
  intros HnF HnU HnS HtF HtU HtS.
  unfold vcf_record, writeSomaticIndelVcfGrid, record_tail. unfold_bind.
  rewrite HnF, HnU, HtF, HtU. unfold IEEE.int_add. rewrite HnS, HtS.
  rewrite !write_vcf_isri_tiers_append.
  generalize (sample_column (nisri siInfo).1 (nisri siInfo).2 wasNormal).
  generalize (sample_column (tisri siInfo).1 (tisri siInfo).2 wasTumor).
  intros colT colN.
  set (c1 := if is_max_depth (dsfilter dopt)
             then IEEE.gtb (IEEE.double_of_Z (depth (nisri siInfo).1))
                           (max_depth (dsfilter dopt))
             else false).
  set (c2 := IEEE.geb (IEEE.double_of_float
                  (IEEE.float_of_double (safeFrac normalFilt (normalFilt + normalUsed))))
                      (indelMaxWindowFilteredBasecallFrac (sfilter opt))
             || IEEE.geb (IEEE.double_of_float
                  (IEEE.float_of_double (safeFrac tumorFilt (tumorFilt + tumorUsed))))
                         (indelMaxWindowFilteredBasecallFrac (sfilter opt))).
  set (c3 := negb (bool_decide (ntype (rs (sindel siInfo)) = REF))
             || (sindel_from_ntype_qphred (rs (sindel siInfo))
                   <? sindelQuality_LowerBound (sfilter opt))).
  pose proof (filters_of_site c1 c2 c3) as Hfs. cbv zeta in Hfs.
  replace (if is_max_depth (dsfilter dopt)
           then if IEEE.gtb (IEEE.double_of_Z (depth (nisri siInfo).1))
                            (max_depth (dsfilter dopt))
                then set_filter HighDepth smod_init else smod_init
           else smod_init)
    with (if c1 then set_filter HighDepth smod_init else smod_init)
    by (subst c1; destruct (is_max_depth (dsfilter dopt)); reflexivity).
  match type of Hfs with
  | (_ ∈ filters ?s <-> _) /\ _ => set (smod := s) in *
  end.
  assert (Hc1 : c1 = true <->
                is_max_depth (dsfilter dopt) = true /\
                IEEE.gtb (IEEE.double_of_Z (depth (nisri siInfo).1))
                         (max_depth (dsfilter dopt)) = true).
  { subst c1. destruct (is_max_depth (dsfilter dopt)); intuition congruence. }
  assert (Hc2 : c2 = true <->
                IEEE.geb (IEEE.double_of_float
                  (IEEE.float_of_double (safeFrac normalFilt (normalFilt + normalUsed))))
                         (indelMaxWindowFilteredBasecallFrac (sfilter opt)) = true \/
                IEEE.geb (IEEE.double_of_float
                  (IEEE.float_of_double (safeFrac tumorFilt (tumorFilt + tumorUsed))))
                         (indelMaxWindowFilteredBasecallFrac (sfilter opt)) = true).
  { subst c2. apply orb_true_iff. }
  assert (Hc3 : c3 = true <->
                ntype (rs (sindel siInfo)) <> REF \/
                sindel_from_ntype_qphred (rs (sindel siInfo))
                  < sindelQuality_LowerBound (sfilter opt)).
  { subst c3. rewrite orb_true_iff, negb_true_iff, bool_decide_eq_false, Z.ltb_lt.
    reflexivity. }
  destruct Hfs as (Hf1 & Hf2 & Hf3).
  rewrite Hc1 in Hf1. rewrite Hc2 in Hf2. rewrite Hc3 in Hf3.
  clearbody smod. clear Hc1 Hc2 Hc3. clearbody c1 c2 c3.
  destruct (is_repeat_unit (iri siInfo)) eqn:Hru,
           (bool_decide (it (iri siInfo) = BP_LEFT) || bool_decide (it (iri siInfo) = BP_RIGHT)),
           (is_overlap (rs (sindel siInfo)));
    run_stream; cbn [app];
    (eexists _, (filters smod);
     split; [ apply f_equal; peel_prefix | ];
     split; [ reflexivity | ];
     split; [ exact Hf1 | ];
     split; [ exact Hf2 | ];
     split; [ exact Hf3 | ];
     split; [ reflexivity | ];
     split; [ reflexivity | ];
     split; [ reflexivity | ];
     split; [ | split; reflexivity ]).
  all: try discriminate.
  all: intros _; unfold repeat_unit_fields;
    eexists (_ :: _ :: _ :: _ :: _ :: _ :: _ :: _ :: _ :: _ ::
             _ :: _ :: _ :: _ :: _ :: _ :: _ :: _ :: _ :: _ ::
             _ :: _ :: _ :: _ :: _ :: _ :: _ :: [] ), _; reflexivity.
Qed.

End Anatomy.

(** ** Observations commute with concatenation *)

Lemma filter_fields_app ts1 ts2 :
  filter_fields (ts1 ++ ts2) = filter_fields ts1 ++ filter_fields ts2.
Proof. apply omap_app. Qed.

Lemma reals_of_app ts1 ts2 : reals_of (ts1 ++ ts2) = reals_of ts1 ++ reals_of ts2.
Proof. apply omap_app. Qed.

Lemma has_lit_app s ts1 ts2 : has_lit s (ts1 ++ ts2) = has_lit s ts1 || has_lit s ts2.
Proof. apply existsb_app. Qed.

Lemma count_lit_app s ts1 ts2 :
  count_lit s (ts1 ++ ts2) = (count_lit s ts1 + count_lit s ts2)%nat.
Proof. unfold count_lit. rewrite List.filter_app, length_app. reflexivity. Qed.

Lemma reals_of_columns (colN colT : list token) :
  reals_of (((colN ++ [TLit tab]) ++ colT) ++ [TLit newline])
  = reals_of colN ++ reals_of colT.
Proof.
  rewrite !reals_of_app. cbn [reals_of omap list_omap]. rewrite !app_nil_r. reflexivity.
Qed.

Lemma count_lit_concat s (tss : list (list token)) :
  Forall (fun ts => count_lit s ts = 1%nat) tss ->
  count_lit s (concat tss) = length tss.
Proof.
  induction 1 as [|ts tss Hts _ IH]; [reflexivity|].
  cbn [concat length]. rewrite count_lit_app, Hts, IH. reflexivity.
Qed.

Section ColumnObservations.
Context `{Collaborators}.

Lemma sample_column_filter_fields isri1 isri2 was :
  filter_fields (sample_column isri1 isri2 was) = [].
Proof. rewrite sample_column_tokens. reflexivity. Qed.

Lemma sample_column_has_lit s isri1 isri2 was :
  In s repeat_unit_keys -> has_lit s (sample_column isri1 isri2 was) = false.
Proof.
  intros [<-|[<-|[<-|[]]]]; rewrite sample_column_tokens; reflexivity.
Qed.

Lemma sample_column_count_newline isri1 isri2 was :
  count_lit newline (sample_column isri1 isri2 was) = 0%nat.
Proof. rewrite sample_column_tokens. reflexivity. Qed.

(** The floating-point fields of a sample column, in order. *)
Lemma sample_column_reals isri1 isri2 was :
  reals_of (sample_column isri1 isri2 was) =
  map (pair fixed2)
    [ IEEE.float_add (avg (ss_used_win was)) (avg (ss_filt_win was));
      avg (ss_filt_win was);
      avg (ss_submap_win was);
      calculateIndelAF isri1; calculateIndelAF isri2;
      calculateSOR isri1; calculateSOR isri2;
      calculateFS isri1; calculateFS isri2;
      get_u_stat (readpos_ranksum isri1); get_u_stat (readpos_ranksum isri2);
      mean_mapq isri1; mean_mapq isri2;
      mapq0_frac isri1; mapq0_frac isri2 ].
Proof. rewrite sample_column_tokens. reflexivity. Qed.

End ColumnObservations.

(** ** Records: existence and shape *)

Section Records.
Context `{Collaborators}.

Lemma record_tail_filter_fields siInfo wasNormal wasTumor :
  filter_fields (record_tail siInfo wasNormal wasTumor) = [].
Proof.
  unfold record_tail.
  rewrite !filter_fields_app, !sample_column_filter_fields. reflexivity.
Qed.

Lemma record_tail_has_lit s siInfo wasNormal wasTumor :
  In s repeat_unit_keys -> has_lit s (record_tail siInfo wasNormal wasTumor) = false.
Proof.
  intros Hs. unfold record_tail.
  rewrite !has_lit_app, !sample_column_has_lit by exact Hs.
  destruct Hs as [<-|[<-|[<-|[]]]]; reflexivity.
Qed.

Lemma record_tail_count_newline siInfo wasNormal wasTumor :
  count_lit newline (record_tail siInfo wasNormal wasTumor) = 1%nat.
Proof.
  unfold record_tail.
  rewrite !count_lit_app, !sample_column_count_newline. reflexivity.
Qed.

(** A record is rendered whenever the window conversions are defined;
    it holds one end of line. *)
Lemma vcf_record_defined opt dopt pos siInfo wasNormal wasTumor :
  window_ints_defined wasNormal -> window_ints_defined wasTumor ->
  exists r, vcf_record opt dopt pos siInfo wasNormal wasTumor = Ok r /\
            count_lit newline r = 1%nat.
Proof.
  intros (nF & nU & HnF & HnU & HnS) (tF & tU & HtF & HtU & HtS).
  destruct (vcf_record_anatomy opt dopt pos siInfo wasNormal wasTumor
              nF nU tF tU HnF HnU HnS HtF HtU HtS)
    as (pre & fs & Hr & _ & _ & _ & _ & _ & _ & _ & _ & Hnl & _).
  eexists. split; [exact Hr|].
  rewrite count_lit_app, Hnl, record_tail_count_newline. reflexivity.
Qed.

(** The loop of [addIndelWindowData] appends one record per candidate,
    in list order. *)
Lemma write_each_append opt dopt pos wasNormal wasTumor :
  window_ints_defined wasNormal -> window_ints_defined wasTumor ->
  forall (indels : list SomaticIndelVcfInfo) (os : ostream),
  exists records : list (list token),
    Forall2 (fun siInfo r => vcf_record opt dopt pos siInfo wasNormal wasTumor = Ok r)
            indels records /\
    Forall (fun r => count_lit newline r = 1%nat) records /\
    write_each opt dopt pos indels wasNormal wasTumor os = Ok (append (concat records) os).
Proof.
  intros HN HT indels.
  induction indels as [|siInfo rest IH]; intros os.
  - exists []. repeat split; [constructor | constructor |].
    cbn. unfold append. rewrite app_nil_r. destruct os; reflexivity.
  - destruct (vcf_record_defined opt dopt pos siInfo wasNormal wasTumor HN HT)
      as (r & Hr & Hnl).
    destruct (IH (append r os)) as (records & Hall & Hnls & Hw).
    exists (r :: records). repeat split.
    + constructor; assumption.
    + constructor; assumption.
    + cbn [write_each]. rewrite writeSomaticIndelVcfGrid_append, Hr.
      unfold_bind. rewrite Hw. unfold append. cbn [os_out os_fmt concat].
      rewrite app_assoc. reflexivity.
Qed.

(** When a window conversion is undefined nothing is rendered. *)
Lemma writeSomaticIndelVcfGrid_fails opt dopt pos siInfo wasNormal wasTumor os f :
  writeSomaticIndelVcfGrid opt dopt pos siInfo wasNormal wasTumor os = Fail f ->
  f = UndefinedBehaviour /\ ~ (window_ints_defined wasNormal /\ window_ints_defined wasTumor).
Proof.
  rewrite writeSomaticIndelVcfGrid_append. unfold_bind.
  destruct (vcf_record opt dopt pos siInfo wasNormal wasTumor) as [r|f'] eqn:Hr;
    [discriminate|].
  intros [= ->]. split.
  - revert Hr. unfold vcf_record, writeSomaticIndelVcfGrid, IEEE.to_int, IEEE.int_add.
    unfold_bind.
    repeat match goal with
           | |- context [match ?o with Some _ => _ | None => _ end] => destruct o
           | |- context [if ?b then _ else _] =>
               lazymatch b with Int32.in_int_range _ => destruct b end
           end; congruence.
  - intros [HN HT].
    destruct (vcf_record_defined opt dopt pos siInfo wasNormal wasTumor HN HT)
      as (r & Hr' & _).
    congruence.
Qed.

End Records.

(** ** The buffer: caching *)

Lemma cacheIndel_lookup_eq pos siInfo w :
  _data (cacheIndel pos siInfo w) !! pos = Some (pending pos w ++ [siInfo]).
Proof. unfold cacheIndel, pending. cbn [_data]. apply lookup_insert_eq. Qed.

Lemma cacheIndel_lookup_ne pos q siInfo w :
  pos <> q -> _data (cacheIndel pos siInfo w) !! q = _data w !! q.
Proof. intros Hne. unfold cacheIndel. cbn [_data]. apply lookup_insert_ne, Hne. Qed.

Lemma cache_all_frame ops : forall w,
  _opt (cache_all ops w) = _opt w /\
  _dopt (cache_all ops w) = _dopt w /\
  _osptr (cache_all ops w) = _osptr w.
Proof.
  induction ops as [|op ops IH]; intros w; [repeat split|].
  destruct (IH (cacheIndel (fst op) (snd op) w)) as (H1 & H2 & H3).
  unfold cache_all in *. cbn [foldl]. rewrite H1, H2, H3. repeat split.
Qed.

Lemma cache_all_lookup pos ops : forall w,
  _data (cache_all ops w) !! pos =
  match cached_at pos ops with
  | [] => _data w !! pos
  | _ :: _ => Some (pending pos w ++ cached_at pos ops)
  end.
Proof.
  induction ops as [|[p c] ops IH]; intros w; [reflexivity|].
  change (cache_all ((p, c) :: ops) w) with (cache_all ops (cacheIndel p c w)).
  rewrite IH. unfold cached_at. cbn [omap list_omap fst snd].
  fold (cached_at pos ops).
  destruct (bool_decide (p = pos)) eqn:Hp.
  - apply bool_decide_eq_true in Hp. subst p.
    unfold pending at 1. rewrite cacheIndel_lookup_eq. cbn [default id].
    destruct (cached_at pos ops).
    + reflexivity.
    + rewrite <- app_assoc. reflexivity.
  - apply bool_decide_eq_false in Hp.
    unfold pending. rewrite cacheIndel_lookup_ne by exact Hp. reflexivity.
Qed.

(** ** The buffer: flushing *)

Lemma testPos_true pos w : testPos pos w = true <-> is_Some (_data w !! pos).
Proof. unfold testPos. apply bool_decide_eq_true. Qed.

Lemma testPos_false pos w : testPos pos w = false <-> _data w !! pos = None.
Proof.
  unfold testPos. rewrite bool_decide_eq_false, <- eq_None_not_Some. reflexivity.
Qed.

Section FlushLemmas.
Context `{Collaborators}.

(** A flush that returns has removed the entry of its position and has
    touched neither the options nor any other entry. *)
Lemma addIndelWindowData_inv pos wasNormal wasTumor w w' :
  addIndelWindowData pos wasNormal wasTumor w = Ok w' ->
  testPos pos w = true /\
  _data w' = delete pos (_data w) /\
  _opt w' = _opt w /\ _dopt w' = _dopt w.
Proof.
  unfold addIndelWindowData. destruct (testPos pos w); [|discriminate].
  unfold_bind.
  destruct (write_each _ _ _ _ _ _ _); [|discriminate].
  intros [= <-]. repeat split.
Qed.

(** Flushing a pending position renders every pending candidate, in list
    order, and removes the entry. *)
Lemma flush_pending pos wasNormal wasTumor w indels :
  _data w !! pos = Some indels ->
  window_ints_defined wasNormal -> window_ints_defined wasTumor ->
  exists (records : list (list token)) (w' : SomaticIndelVcfWriter),
    addIndelWindowData pos wasNormal wasTumor w = Ok w' /\
    Forall2 (fun siInfo r =>
               vcf_record (_opt w) (_dopt w) pos siInfo wasNormal wasTumor = Ok r)
            indels records /\
    Forall (fun r => count_lit newline r = 1%nat) records /\
    _osptr w' = append (concat records) (_osptr w) /\
    _data w' = delete pos (_data w).
Proof.
  intros Hpos HN HT.
  destruct (write_each_append (_opt w) (_dopt w) pos wasNormal wasTumor HN HT
              indels (_osptr w)) as (records & Hall & Hnl & Hw).
  unfold addIndelWindowData.
  assert (Htest : testPos pos w = true) by (apply testPos_true; rewrite Hpos; eauto).
  rewrite Htest, Hpos. cbn [default id]. rewrite Hw. unfold_bind.
  eexists records, _. repeat split; assumption.
Qed.

End FlushLemmas.

(** C1: for a position holding N cached candidates (those already pending
    followed by those a run of [cacheIndel] calls adds there, several at
    one position included), [addIndelWindowData] returns, appends exactly N
    records to the stream, the record of each candidate in cache order, N
    ends of line in all, and leaves the position without an entry in the
    buffer, so that [testPos] is false. *)
Theorem flush_emits_cached_in_order `{Collaborators}
    (w : SomaticIndelVcfWriter) (ops : list (Z * SomaticIndelVcfInfo)) (pos : Z)
    (wasNormal wasTumor : win_avg_set) :
  is_Some (_data w !! pos) \/ cached_at pos ops <> [] ->
  window_ints_defined wasNormal -> window_ints_defined wasTumor ->
  let cached := pending pos w ++ cached_at pos ops in
  exists (records : list (list token)) (w' : SomaticIndelVcfWriter),
    addIndelWindowData pos wasNormal wasTumor (cache_all ops w) = Ok w' /\
    Forall2 (fun siInfo r =>
               vcf_record (_opt w) (_dopt w) pos siInfo wasNormal wasTumor = Ok r)
            cached records /\
    os_out (_osptr w') = os_out (_osptr w) ++ concat records /\
    os_fmt (_osptr w') = os_fmt (_osptr w) /\
    length records = length cached /\
    count_lit newline (concat records) = length cached /\
    _data w' !! pos = None /\
    testPos pos w' = false.
Proof.
  intros Hsome HN HT cached.
  assert (Hlook : _data (cache_all ops w) !! pos = Some cached).
  { rewrite cache_all_lookup. subst cached. unfold pending.
    destruct (cached_at pos ops) as [|c cs] eqn:Hc.
    - destruct Hsome as [[l Hl]|Hne]; [|congruence].
      rewrite Hl. cbn [default id]. rewrite app_nil_r. reflexivity.
    - reflexivity. }
  destruct (flush_pending pos wasNormal wasTumor (cache_all ops w) cached Hlook HN HT)
    as (records & w' & Hflush & Hall & Hnl & Hos & Hdata).
  destruct (cache_all_frame ops w) as (Hopt & Hdopt & Hosptr).
  rewrite Hopt, Hdopt in Hall. rewrite Hosptr in Hos.
  exists records, w'. repeat split.
  - exact Hflush.
  - exact Hall.
  - rewrite Hos. reflexivity.
  - rewrite Hos. reflexivity.
  - symmetry. eapply Forall2_length, Hall.
  - rewrite (count_lit_concat _ _ Hnl). symmetry. eapply Forall2_length, Hall.
  - rewrite Hdata. apply lookup_delete_eq.
  - apply testPos_false. rewrite Hdata. apply lookup_delete_eq.
Qed.

(** C5: [addIndelWindowData] on a position without pending candidates
    stops at its assertion; it does not return. *)
Theorem flush_without_pending_fails `{Collaborators}
    (w : SomaticIndelVcfWriter) (pos : Z) (wasNormal wasTumor : win_avg_set) :
  testPos pos w = false ->
  addIndelWindowData pos wasNormal wasTumor w = Fail AssertionFailed.
Proof.
  intros Htest. unfold addIndelWindowData. rewrite Htest. reflexivity.
Qed.

(** C10: [cacheIndel] at [p] appends the candidate to the end of the list
    of [p], which is the candidate alone when [p] had no entry, and leaves
    the entry of any other position [q], the options and the stream as
    they were; a flush of [p] that returns has removed the entry of [p]
    and left the entry of any other position [q] and the options as they
    were. *)
Theorem cache_and_flush_frame `{Collaborators}
    (w : SomaticIndelVcfWriter) (p q : Z) (siInfo : SomaticIndelVcfInfo) :
  _data (cacheIndel p siInfo w) !! p = Some (pending p w ++ [siInfo]) /\
  (_data w !! p = None -> _data (cacheIndel p siInfo w) !! p = Some [siInfo]) /\
  (p <> q -> _data (cacheIndel p siInfo w) !! q = _data w !! q) /\
  _opt (cacheIndel p siInfo w) = _opt w /\
  _dopt (cacheIndel p siInfo w) = _dopt w /\
  _osptr (cacheIndel p siInfo w) = _osptr w /\
  (forall (wasNormal wasTumor : win_avg_set) (w' : SomaticIndelVcfWriter),
     addIndelWindowData p wasNormal wasTumor w = Ok w' ->
     _data w' !! p = None /\
     (p <> q -> _data w' !! q = _data w !! q) /\
     _data w' = delete p (_data w) /\
     _opt w' = _opt w /\ _dopt w' = _dopt w).
Proof.
  split; [apply cacheIndel_lookup_eq|].
  split.
  { intros Hnone. rewrite cacheIndel_lookup_eq. unfold pending. rewrite Hnone.
    reflexivity. }
  split; [intros Hne; apply cacheIndel_lookup_ne, Hne|].
  do 3 (split; [reflexivity|]).
  intros wasNormal wasTumor w' Hflush.
  apply addIndelWindowData_inv in Hflush as (_ & Hdata & Hopt & Hdopt).
  rewrite Hdata. split; [apply lookup_delete_eq|].
  split; [intros Hne; apply lookup_delete_ne, Hne|].
  split; [reflexivity|]. split; assumption.
Qed.

Lemma quiet_window_defined : window_ints_defined Sample.quiet_window.
Proof. exists 0, 30. vm_compute. repeat split. Defined.

(** Three calls, two of them at position 5, then a flush of 5: two
    records, and 5 is no longer pending. *)
Lemma flush_emits_cached_in_order_witness :
  let calls := [ (5, Sample.candidate REF 40 false 50);
                 (7, Sample.candidate HET 40 true 50);
                 (5, Sample.candidate HOM 10 true 150) ] in
  cached_at 5 calls <> [] /\
  exists (records : list (list token)) (w' : SomaticIndelVcfWriter),
    @addIndelWindowData Sample.collaborators 5 Sample.quiet_window Sample.quiet_window
      (cache_all calls (Sample.writer ∅)) = Ok w' /\
    os_out (_osptr w') = concat records /\
    length records = 2%nat /\
    testPos 5 w' = false.
Proof.
  intros calls.
  assert (Hcached : cached_at 5 calls <> []) by (vm_compute; discriminate).
  split; [exact Hcached|].
  destruct (@flush_emits_cached_in_order Sample.collaborators
              (Sample.writer ∅) calls 5 Sample.quiet_window Sample.quiet_window
              (or_intror Hcached) quiet_window_defined quiet_window_defined)
    as (records & w' & Hflush & _ & Hout & _ & Hlen & _ & _ & Htest).
  exists records, w'.
  split; [exact Hflush|].
  split; [exact Hout|].
  split; [exact Hlen|exact Htest].
Defined.

Lemma flush_without_pending_fails_witness :
  testPos 3 (Sample.writer ∅) = false /\
  @addIndelWindowData Sample.collaborators 3 Sample.quiet_window Sample.quiet_window
    (Sample.writer ∅) = Fail AssertionFailed.
Proof.
  split; [vm_compute; reflexivity|].
  apply (@flush_without_pending_fails Sample.collaborators).
  vm_compute; reflexivity.
Defined.

Lemma cache_and_flush_frame_witness :
  let c1 := Sample.candidate REF 40 false 50 in
  let c2 := Sample.candidate HET 40 true 50 in
  let c3 := Sample.candidate HOM 10 true 150 in
  let w := Sample.writer {[ 5 := [c1]; 7 := [c2] ]} in
  _data (cacheIndel 9 c3 w) !! 9 = Some [c3] /\
  _data (cacheIndel 9 c3 w) !! 7 = Some [c2] /\
  _data (cacheIndel 5 c3 w) !! 5 = Some [c1; c3] /\
  _data (cacheIndel 5 c3 w) !! 7 = Some [c2] /\
  exists w' : SomaticIndelVcfWriter,
    @addIndelWindowData Sample.collaborators 5 Sample.quiet_window Sample.quiet_window w
      = Ok w' /\
    _data w' !! 5 = None /\
    _data w' !! 7 = Some [c2].
Proof.
  intros c1 c2 c3 w.
  assert (Hne5 : (5 : Z) <> 7) by lia.
  assert (Hne9 : (9 : Z) <> 7) by lia.
  assert (H7 : _data w !! 7 = Some [c2]) by (vm_compute; reflexivity).
  assert (H9 : _data w !! 9 = None) by (vm_compute; reflexivity).
  assert (H5 : _data w !! 5 = Some [c1]) by (vm_compute; reflexivity).
  destruct (@cache_and_flush_frame Sample.collaborators w 9 7 c3)
    as (_ & Hnew & Hother9 & _).
  destruct (@cache_and_flush_frame Sample.collaborators w 5 7 c3)
    as (Happ & _ & Hother5 & _ & _ & _ & Hflushed).
  split; [exact (Hnew H9)|].
  split; [rewrite (Hother9 Hne9); exact H7|].
  split; [rewrite Happ; unfold pending; rewrite H5; reflexivity|].
  split; [rewrite (Hother5 Hne5); exact H7|].
  destruct (@flush_pending Sample.collaborators 5 Sample.quiet_window Sample.quiet_window
              w [c1] H5 quiet_window_defined quiet_window_defined)
    as (records & w' & Hflush & _).
  destruct (Hflushed _ _ _ Hflush) as (Hgone & Hkept & _).
  exists w'.
  split; [exact Hflush|].
  split; [exact Hgone|].
  rewrite (Hkept Hne5). exact H7.
Defined.

(** ** Site filters and annotation fields of a record *)

(** C7: the filter field of a rendered record holds [QSI_ref] exactly when
    the normal genotype is not [REF] or the NT-relative quality is below
    [sindelQuality_LowerBound]; so it does for every candidate whose normal
    genotype is not [REF], whatever the quality and the other filters. *)
Theorem QSI_ref_filter `{Collaborators}
    (opt : strelka_options) (dopt : strelka_deriv_options) (pos : Z)
    (siInfo : SomaticIndelVcfInfo) (wasNormal wasTumor : win_avg_set) :
  window_ints_defined wasNormal -> window_ints_defined wasTumor ->
  exists (r : list token) (fs : gset STRELKA_VCF_FILTERS),
    vcf_record opt dopt pos siInfo wasNormal wasTumor = Ok r /\
    filter_fields r = [fs] /\
    (QSI_ref ∈ fs <->
       ntype (rs (sindel siInfo)) <> REF \/
       sindel_from_ntype_qphred (rs (sindel siInfo))
         < sindelQuality_LowerBound (sfilter opt)) /\
    (ntype (rs (sindel siInfo)) <> REF -> QSI_ref ∈ fs) /\
    (sindel_from_ntype_qphred (rs (sindel siInfo))
       < sindelQuality_LowerBound (sfilter opt) -> QSI_ref ∈ fs).
Proof.
  intros (nF & nU & HnF & HnU & HnS) (tF & tU & HtF & HtU & HtS).
  destruct (vcf_record_anatomy opt dopt pos siInfo wasNormal wasTumor
              nF nU tF tU HnF HnU HnS HtF HtU HtS)
    as (pre & fs & Hr & Hfs & _ & _ & Hq & _).
  exists (pre ++ record_tail siInfo wasNormal wasTumor), fs.
  split; [exact Hr|].
  split; [rewrite filter_fields_app, Hfs, record_tail_filter_fields; reflexivity|].
  split; [exact Hq|].
  split; intros Hc; apply Hq; [left|right]; exact Hc.
Qed.

Lemma QSI_ref_filter_witness :
  exists (r : list token) (fs : gset STRELKA_VCF_FILTERS),
    @vcf_record Sample.collaborators Sample.options Sample.deriv_options 41
      (Sample.candidate HET 60 false 50) Sample.quiet_window Sample.quiet_window = Ok r /\
    filter_fields r = [fs] /\
    QSI_ref ∈ fs.
Proof.
  destruct (@QSI_ref_filter Sample.collaborators Sample.options Sample.deriv_options 41
              (Sample.candidate HET 60 false 50) Sample.quiet_window Sample.quiet_window
              quiet_window_defined quiet_window_defined)
    as (r & fs & Hr & Hfs & _ & Hnt & _).
  exists r, fs.
  split; [exact Hr|].
  split; [exact Hfs|].
  apply Hnt. vm_compute. discriminate.
Defined.

(** C9: a rendered record holds the [RU], [RC] and [IC] fields exactly
    when [is_repeat_unit] holds of the descriptor; when it holds the three
    fields stand together in the annotation block, and when it does not
    none of the three keys is written. *)
Theorem repeat_unit_fields_iff `{Collaborators}
    (opt : strelka_options) (dopt : strelka_deriv_options) (pos : Z)
    (siInfo : SomaticIndelVcfInfo) (wasNormal wasTumor : win_avg_set) :
  window_ints_defined wasNormal -> window_ints_defined wasTumor ->
  exists r : list token,
    vcf_record opt dopt pos siInfo wasNormal wasTumor = Ok r /\
    (forall key, In key repeat_unit_keys ->
                 (has_lit key r = true <-> is_repeat_unit (iri siInfo) = true)) /\
    (is_repeat_unit (iri siInfo) = true ->
     exists a b, r = a ++ repeat_unit_fields (iri siInfo) ++ b) /\
    (is_repeat_unit (iri siInfo) = false ->
     forall key, In key repeat_unit_keys -> has_lit key r = false).
Proof.
  intros (nF & nU & HnF & HnU & HnS) (tF & tU & HtF & HtU & HtS).
  destruct (vcf_record_anatomy opt dopt pos siInfo wasNormal wasTumor
              nF nU tF tU HnF HnU HnS HtF HtU HtS)
    as (pre & fs & Hr & _ & _ & _ & _ & Hru & Hrc & Hic & Hfields & _).
  assert (Hkeys : forall key, In key repeat_unit_keys ->
            has_lit key (pre ++ record_tail siInfo wasNormal wasTumor)
            = is_repeat_unit (iri siInfo)).
  { intros key Hkey. rewrite has_lit_app, record_tail_has_lit by exact Hkey.
    rewrite orb_false_r.
    destruct Hkey as [<-|[<-|[<-|[]]]]; assumption. }
  exists (pre ++ record_tail siInfo wasNormal wasTumor).
  split; [exact Hr|].
  split; [intros key Hkey; rewrite (Hkeys key Hkey); reflexivity|].
  split.
  - intros Htrue. destruct (Hfields Htrue) as (a & b & ->).
    exists a, (b ++ record_tail siInfo wasNormal wasTumor).
    rewrite <- !app_assoc. reflexivity.
  - intros Hfalse key Hkey. rewrite (Hkeys key Hkey). exact Hfalse.
Qed.

Lemma repeat_unit_fields_iff_witness :
  exists r : list token,
    @vcf_record Sample.collaborators Sample.options Sample.deriv_options 41
      (Sample.candidate REF 60 true 50) Sample.quiet_window Sample.quiet_window = Ok r /\
    has_lit ";RU=" r = true /\ has_lit ";RC=" r = true /\ has_lit ";IC=" r = true.
Proof.
  destruct (@repeat_unit_fields_iff Sample.collaborators Sample.options
              Sample.deriv_options 41
              (Sample.candidate REF 60 true 50) Sample.quiet_window Sample.quiet_window
              quiet_window_defined quiet_window_defined)
    as (r & Hr & Hkeys & _).
  exists r.
  split; [exact Hr|].
  repeat split; apply Hkeys; vm_compute; tauto.
Defined.

(** C6: the filter field of a rendered record holds [HighDepth] exactly
    when a max-depth threshold is configured and the tier-1 normal depth,
    as a [double], is greater than it; for a threshold that is an integer
    this is [threshold < depth], so a depth equal to the threshold does not
    raise the filter. *)
Theorem HighDepth_filter `{Collaborators}
    (opt : strelka_options) (dopt : strelka_deriv_options) (pos : Z)
    (siInfo : SomaticIndelVcfInfo) (wasNormal wasTumor : win_avg_set) :
  window_ints_defined wasNormal -> window_ints_defined wasTumor ->
  exists (r : list token) (fs : gset STRELKA_VCF_FILTERS),
    vcf_record opt dopt pos siInfo wasNormal wasTumor = Ok r /\
    filter_fields r = [fs] /\
    (HighDepth ∈ fs <->
       is_max_depth (dsfilter dopt) = true /\
       IEEE.gtb (IEEE.double_of_Z (depth (fst (nisri siInfo))))
                (max_depth (dsfilter dopt)) = true) /\
    (forall threshold : Z,
       0 <= threshold < 2 ^ 53 ->
       Int32.is_unsigned (depth (fst (nisri siInfo))) ->
       max_depth (dsfilter dopt) = IEEE.double_of_Z threshold ->
       (HighDepth ∈ fs <->
          is_max_depth (dsfilter dopt) = true /\
          threshold < depth (fst (nisri siInfo)))).
Proof.
  intros (nF & nU & HnF & HnU & HnS) (tF & tU & HtF & HtU & HtS).
  destruct (vcf_record_anatomy opt dopt pos siInfo wasNormal wasTumor
              nF nU tF tU HnF HnU HnS HtF HtU HtS)
    as (pre & fs & Hr & Hfs & Hd & _).
  exists (pre ++ record_tail siInfo wasNormal wasTumor), fs.
  split; [exact Hr|].
  split; [rewrite filter_fields_app, Hfs, record_tail_filter_fields; reflexivity|].
  split; [exact Hd|].
  intros threshold Hthr Hdepth Hmax.
  rewrite Hd, Hmax, gtb_double_of_Z, Z.ltb_lt.
  - reflexivity.
  - unfold Int32.is_unsigned, Int32.modulus in Hdepth. lia.
  - exact Hthr.
Qed.

(** Threshold 100: depth 150 raises [HighDepth], depth 100 does not. *)
Lemma HighDepth_filter_witness :
  (exists (r : list token) (fs : gset STRELKA_VCF_FILTERS),
     @vcf_record Sample.collaborators Sample.options Sample.deriv_options 41
       (Sample.candidate REF 60 false 150) Sample.quiet_window Sample.quiet_window = Ok r /\
     filter_fields r = [fs] /\ HighDepth ∈ fs) /\
  (exists (r : list token) (fs : gset STRELKA_VCF_FILTERS),
     @vcf_record Sample.collaborators Sample.options Sample.deriv_options 41
       (Sample.candidate REF 60 false 100) Sample.quiet_window Sample.quiet_window = Ok r /\
     filter_fields r = [fs] /\ HighDepth ∉ fs).
Proof.
  split.
  - destruct (@HighDepth_filter Sample.collaborators Sample.options Sample.deriv_options 41
                (Sample.candidate REF 60 false 150) Sample.quiet_window Sample.quiet_window
                quiet_window_defined quiet_window_defined)
      as (r & fs & Hr & Hfs & _ & Hint).
    exists r, fs. split; [exact Hr|]. split; [exact Hfs|].
    apply (Hint 100).
    + lia.
    + vm_compute. split; [discriminate|reflexivity].
    + reflexivity.
    + split; [reflexivity|vm_compute; reflexivity].
  - destruct (@HighDepth_filter Sample.collaborators Sample.options Sample.deriv_options 41
                (Sample.candidate REF 60 false 100) Sample.quiet_window Sample.quiet_window
                quiet_window_defined quiet_window_defined)
      as (r & fs & Hr & Hfs & _ & Hint).
    exists r, fs. split; [exact Hr|]. split; [exact Hfs|].
    intros Hin. apply (Hint 100) in Hin.
    + destruct Hin as [_ Hlt]. vm_compute in Hlt. discriminate.
    + lia.
    + vm_compute. split; [discriminate|reflexivity].
    + reflexivity.
Defined.

(** ** The basecall-noise filter *)

(** What the code computes: [IndelBCNoise] is raised from the window
    averages truncated to [int]; their fraction is rounded to [float] and
    promoted back to [double] where it meets the threshold. *)
Lemma IndelBCNoise_filter `{Collaborators}
    (opt : strelka_options) (dopt : strelka_deriv_options) (pos : Z)
    (siInfo : SomaticIndelVcfInfo) (wasNormal wasTumor : win_avg_set)
    (normalFilt normalUsed tumorFilt tumorUsed : Z) :
  IEEE.to_int (avg (ss_filt_win wasNormal)) = Ok normalFilt ->
  IEEE.to_int (avg (ss_used_win wasNormal)) = Ok normalUsed ->
  Int32.in_int_range (normalFilt + normalUsed) = true ->
  IEEE.to_int (avg (ss_filt_win wasTumor)) = Ok tumorFilt ->
  IEEE.to_int (avg (ss_used_win wasTumor)) = Ok tumorUsed ->
  Int32.in_int_range (tumorFilt + tumorUsed) = true ->
  exists (r : list token) (fs : gset STRELKA_VCF_FILTERS),
    vcf_record opt dopt pos siInfo wasNormal wasTumor = Ok r /\
    filter_fields r = [fs] /\
    (IndelBCNoise ∈ fs <->
       IEEE.geb (IEEE.double_of_float
                  (IEEE.float_of_double (safeFrac normalFilt (normalFilt + normalUsed))))
                (indelMaxWindowFilteredBasecallFrac (sfilter opt)) = true \/
       IEEE.geb (IEEE.double_of_float
                  (IEEE.float_of_double (safeFrac tumorFilt (tumorFilt + tumorUsed))))
                (indelMaxWindowFilteredBasecallFrac (sfilter opt)) = true).
Proof.
  intros HnF HnU HnS HtF HtU HtS.
  destruct (vcf_record_anatomy opt dopt pos siInfo wasNormal wasTumor
              normalFilt normalUsed tumorFilt tumorUsed HnF HnU HnS HtF HtU HtS)
    as (pre & fs & Hr & Hfs & _ & Hb & _).
  exists (pre ++ record_tail siInfo wasNormal wasTumor), fs.
  split; [exact Hr|].
  split; [rewrite filter_fields_app, Hfs, record_tail_filter_fields; reflexivity|].
  exact Hb.
Qed.

(** C3, at window averages of 0.5 used and 0.5 filtered in both samples
    and a maximum fraction of 0.3: the filtered fraction of the
    specification is 0.5, which reaches the maximum, yet the rendered
    record does not carry [IndelBCNoise], both averages having been
    truncated to 0 before the division. *)
Theorem IndelBCNoise_truncated_averages `{Collaborators}
    (dopt : strelka_deriv_options) (pos : Z) (siInfo : SomaticIndelVcfInfo) :
  spec_filteredFraction Sample.half_window = Sample.half /\
  spec_IndelBasecallNoise Sample.options Sample.half_window Sample.half_window = true /\
  exists (r : list token) (fs : gset STRELKA_VCF_FILTERS),
    vcf_record Sample.options dopt pos siInfo Sample.half_window Sample.half_window = Ok r /\
    filter_fields r = [fs] /\
    IndelBCNoise ∉ fs.
Proof.
  split; [vm_compute; reflexivity|].
  split; [vm_compute; reflexivity|].
  assert (Hfilt : IEEE.to_int (avg (ss_filt_win Sample.half_window)) = Ok 0)
    by (vm_compute; reflexivity).
  assert (Hused : IEEE.to_int (avg (ss_used_win Sample.half_window)) = Ok 0)
    by (vm_compute; reflexivity).
  assert (Hsum : Int32.in_int_range (0 + 0) = true) by (vm_compute; reflexivity).
  destruct (IndelBCNoise_filter Sample.options dopt pos siInfo
              Sample.half_window Sample.half_window 0 0 0 0
              Hfilt Hused Hsum Hfilt Hused Hsum)
    as (r & fs & Hr & Hfs & Hb).
  exists r, fs. split; [exact Hr|]. split; [exact Hfs|].
  rewrite Hb. vm_compute. intros [Hc|Hc]; discriminate.
Qed.

(** ** Allele fraction *)

Lemma safeFrac_nonpositive num denom : denom <= 0 -> safeFrac num denom = IEEE.zero.
Proof.
  intros Hle. unfold safeFrac.
  destruct (0 <? denom) eqn:Hlt; [apply Z.ltb_lt in Hlt; lia|reflexivity].
Qed.

Lemma safeFrac_positive num denom :
  0 < denom ->
  safeFrac num denom = IEEE.double_div (IEEE.double_of_Z num) (IEEE.double_of_Z denom).
Proof.
  intros Hlt. unfold safeFrac. apply Z.ltb_lt in Hlt. rewrite Hlt. reflexivity.
Qed.

(** [safeFrac] never returns NaN. *)
Lemma safeFrac_not_nan num denom : denom < 2 ^ 53 -> safeFrac num denom <> S754_nan.
Proof.
  intros Hd. unfold safeFrac. destruct (0 <? denom) eqn:Hpos; [|discriminate].
  apply Z.ltb_lt in Hpos. destruct denom as [|p|p]; try lia.
  destruct (double_of_Z_pos p Hd) as (m & -> & _).
  apply SFdiv_finite_not_nan, binary_normalize_not_nan.
Qed.

Lemma to_int_lt u : u < Int32.modulus -> Int32.to_int u < 2 ^ 31.
Proof.
  unfold Int32.to_int, Int32.modulus. intros Hu.
  destruct (u <? 2 ^ 31) eqn:Hlt; [apply Z.ltb_lt in Hlt; lia|lia].
Qed.

Lemma calculateIndelAF_not_nan isri : calculateIndelAF isri <> S754_nan.
Proof.
  unfold calculateIndelAF. apply safeFrac_not_nan.
  assert (H31 : Int32.to_int
                  (Int32.wrap (n_q30_ref_reads isri + n_q30_alt_reads isri
                               + n_q30_indel_reads isri)) < 2 ^ 31).
  { apply to_int_lt. unfold Int32.wrap. apply Z.mod_pos_bound. reflexivity. }
  lia.
Qed.

Lemma to_int_small u : 0 <= u <= Int32.INT_MAX -> Int32.to_int u = u.
Proof.
  unfold Int32.to_int, Int32.INT_MAX. intros Hu.
  destruct (u <? 2 ^ 31) eqn:Hlt; [reflexivity|apply Z.ltb_ge in Hlt; lia].
Qed.

Lemma wrap_small z : 0 <= z < Int32.modulus -> Int32.wrap z = z.
Proof. intros Hz. unfold Int32.wrap. apply Z.mod_small, Hz. Qed.

(** C8, within the range of [int]: for an evidence record whose reference,
    alt and indel read counts total zero [calculateIndelAF] returns [0];
    when the total is positive and at most [INT_MAX] it returns the indel
    count divided by the total; and it never returns NaN. *)
Theorem calculateIndelAF_within_int (isri : starling_indel_sample_report_info) :
  isri_wf isri ->
  let total := n_q30_ref_reads isri + n_q30_alt_reads isri + n_q30_indel_reads isri in
  (total = 0 -> calculateIndelAF isri = IEEE.zero) /\
  (0 < total <= Int32.INT_MAX ->
   calculateIndelAF isri =
   IEEE.double_div (IEEE.double_of_Z (n_q30_indel_reads isri)) (IEEE.double_of_Z total)) /\
  (total <= Int32.INT_MAX -> calculateIndelAF isri = spec_alleleFraction isri) /\
  calculateIndelAF isri <> S754_nan.
Proof.
  intros (Hr & Hi & Ha & _) total.
  unfold Int32.is_unsigned in Hr, Hi, Ha.
  assert (Hzero : total = 0 -> calculateIndelAF isri = IEEE.zero).
  { intros H0. unfold calculateIndelAF. fold total. rewrite H0.
    apply safeFrac_nonpositive. vm_compute. discriminate. }
  assert (Hpos : 0 < total <= Int32.INT_MAX ->
                 calculateIndelAF isri =
                 IEEE.double_div (IEEE.double_of_Z (n_q30_indel_reads isri))
                                 (IEEE.double_of_Z total)).
  { intros Ht. unfold calculateIndelAF. fold total.
    assert (Hmax : Int32.INT_MAX < Int32.modulus) by (vm_compute; reflexivity).
    rewrite (wrap_small total) by lia.
    rewrite (to_int_small total) by lia.
    rewrite (to_int_small (n_q30_indel_reads isri)) by (subst total; lia).
    apply safeFrac_positive. lia. }
  split; [exact Hzero|]. split; [exact Hpos|].
  split; [|apply calculateIndelAF_not_nan].
  intros Hmax. unfold spec_alleleFraction. fold total.
  destruct (total =? 0) eqn:Ht.
  - apply Z.eqb_eq in Ht. apply Hzero, Ht.
  - apply Z.eqb_neq in Ht. apply Hpos. subst total. lia.
Qed.

Lemma calculateIndelAF_within_int_witness :
  let isri := Sample.evidence 20 5 1 10 10 2 3 30 in
  isri_wf isri /\
  calculateIndelAF isri = IEEE.double_div (IEEE.double_of_Z 5) (IEEE.double_of_Z 26) /\
  calculateIndelAF (Sample.evidence 0 0 0 0 0 0 0 0) = IEEE.zero.
Proof.
  intros isri.
  assert (Hwf : isri_wf isri) by (vm_compute; intuition discriminate).
  assert (Hwf0 : isri_wf (Sample.evidence 0 0 0 0 0 0 0 0))
    by (vm_compute; intuition discriminate).
  split; [exact Hwf|]. split.
  - destruct (calculateIndelAF_within_int isri Hwf) as (_ & Hpos & _).
    apply Hpos. vm_compute. split; [reflexivity|discriminate].
  - destruct (calculateIndelAF_within_int _ Hwf0) as (Hzero & _).
    apply Hzero. reflexivity.
Defined.

(** C8 as stated fails: [2^31] indel reads and no other read are not a zero
    total, and [calculateIndelAF] returns [0] where the quotient is [1]. *)
Lemma calculateIndelAF_beyond_int :
  let isri := Sample.evidence 0 (2 ^ 31) 0 0 0 0 0 0 in
  isri_wf isri /\
  n_q30_ref_reads isri + n_q30_alt_reads isri + n_q30_indel_reads isri <> 0 /\
  calculateIndelAF isri = IEEE.zero /\
  spec_alleleFraction isri = IEEE.double_of_Z 1 /\
  calculateIndelAF isri <> spec_alleleFraction isri.
Proof.
  vm_compute. repeat split; try discriminate; intros; discriminate.
Qed.

(** ** Strand odds ratio *)

Section StrandOddsRatio.
Context `{Collaborators}.

(** A zero denominator product gives infinity. *)
Lemma calculateSOR_zero_denominator isri :
  n_q30_ref_reads_rev isri * n_q30_indel_reads_fwd isri = 0 ->
  calculateSOR isri = IEEE.infinity.
Proof. intros H0. unfold calculateSOR. rewrite H0. reflexivity. Qed.

(** When neither cross-product reaches [2^32] the code computes the
    strand odds ratio of the specification. *)
Lemma calculateSOR_no_overflow isri :
  0 <= n_q30_ref_reads_fwd isri * n_q30_indel_reads_rev isri < Int32.modulus ->
  0 <= n_q30_ref_reads_rev isri * n_q30_indel_reads_fwd isri < Int32.modulus ->
  calculateSOR isri = spec_strandOddsRatio isri.
Proof.
  intros Hn Hd. unfold calculateSOR, spec_strandOddsRatio.
  rewrite !wrap_small by assumption. reflexivity.
Qed.

End StrandOddsRatio.

(** C2, at 65536 reverse reference reads and 65536 forward indel reads: the
    denominator product is [2^32], not zero, so the specification asks for
    the logarithm of the quotient; the product is taken in [unsigned int],
    wraps to [0], and [calculateSOR] returns infinity. *)
Theorem calculateSOR_denominator_wraps `{Collaborators} :
  let isri := Sample.evidence 0 0 0 1 65536 65536 1 0 in
  isri_wf isri /\
  n_q30_ref_reads_rev isri * n_q30_indel_reads_fwd isri = 2 ^ 32 /\
  calculateSOR isri = IEEE.infinity /\
  spec_strandOddsRatio isri =
    log10 (IEEE.double_div (IEEE.double_of_Z 1) (IEEE.double_of_Z (2 ^ 32))).
Proof.
  intros isri.
  split; [vm_compute; intuition discriminate|].
  split; [reflexivity|].
  split; reflexivity.
Qed.

(** The numerator wraps as well: 100000 forward reference reads and
    100000 reverse indel reads give [10^10], which the code reduces to
    1410065408 before the division. *)
Lemma calculateSOR_numerator_wraps `{Collaborators} :
  let isri := Sample.evidence 0 0 0 100000 1 1 100000 0 in
  isri_wf isri /\
  calculateSOR isri =
    log10 (IEEE.double_div (IEEE.double_of_Z 1410065408) (IEEE.double_of_Z 1)) /\
  spec_strandOddsRatio isri =
    log10 (IEEE.double_div (IEEE.double_of_Z (10 ^ 10)) (IEEE.double_of_Z 1)) /\
  IEEE.double_div (IEEE.double_of_Z 1410065408) (IEEE.double_of_Z 1)
    <> IEEE.double_div (IEEE.double_of_Z (10 ^ 10)) (IEEE.double_of_Z 1).
Proof.
  intros isri.
  split; [vm_compute; intuition discriminate|].
  split; [reflexivity|].
  split; [reflexivity|].
  vm_compute. discriminate.
Qed.

(** ** Number formatting in a sample column *)

Lemma sample_column_reals_fixed2 `{Collaborators}
    (isri1 isri2 : starling_indel_sample_report_info) (was : win_avg_set) :
  Forall (fun fx => fst fx = fixed2) (reals_of (sample_column isri1 isri2 was)).
Proof. rewrite sample_column_reals. repeat constructor. Qed.

(** The floating-point fields of a record are those of its two sample
    columns, so all of them are written in fixed notation with precision
    2. *)
Lemma vcf_record_reals_fixed2 `{Collaborators}
    (opt : strelka_options) (dopt : strelka_deriv_options) (pos : Z)
    (siInfo : SomaticIndelVcfInfo) (wasNormal wasTumor : win_avg_set) :
  window_ints_defined wasNormal -> window_ints_defined wasTumor ->
  exists r : list token,
    vcf_record opt dopt pos siInfo wasNormal wasTumor = Ok r /\
    reals_of r =
      reals_of (sample_column (fst (nisri siInfo)) (snd (nisri siInfo)) wasNormal)
      ++ reals_of (sample_column (fst (tisri siInfo)) (snd (tisri siInfo)) wasTumor) /\
    Forall (fun fx => fst fx = fixed2) (reals_of r).
Proof.
  intros (nF & nU & HnF & HnU & HnS) (tF & tU & HtF & HtU & HtS).
  destruct (vcf_record_anatomy opt dopt pos siInfo wasNormal wasTumor
              nF nU tF tU HnF HnU HnS HtF HtU HtS)
    as (pre & fs & Hr & _ & _ & _ & _ & _ & _ & _ & _ & _ & Hreals).
  assert (Heq : reals_of (pre ++ record_tail siInfo wasNormal wasTumor) =
                reals_of (sample_column (fst (nisri siInfo)) (snd (nisri siInfo)) wasNormal)
                ++ reals_of (sample_column (fst (tisri siInfo)) (snd (tisri siInfo)) wasTumor)).
  { unfold record_tail. rewrite reals_of_app, Hreals. apply reals_of_columns. }
  exists (pre ++ record_tail siInfo wasNormal wasTumor).
  split; [exact Hr|]. split; [exact Heq|].
  rewrite Heq. apply Forall_app. split; apply sample_column_reals_fixed2.
Qed.

(** C4, as the code has it: [write_vcf_isri_tiers] appends the sample
    column and leaves the formatting state of the stream as it found it,
    and every floating-point field of the column, the three window fields
    and the allele fractions, strand odds ratios, strand-bias scores,
    rank-sum statistics, mean mapping qualities and zero-mapping-quality
    fractions alike, is written in fixed notation with precision 2. *)
Theorem sample_column_all_fixed2 `{Collaborators}
    (isri1 isri2 : starling_indel_sample_report_info) (was : win_avg_set) (os : ostream) :
  os_out (write_vcf_isri_tiers isri1 isri2 was os)
    = os_out os ++ sample_column isri1 isri2 was /\
  os_fmt (write_vcf_isri_tiers isri1 isri2 was os) = os_fmt os /\
  reals_of (sample_column isri1 isri2 was) =
    map (pair fixed2)
      [ IEEE.float_add (avg (ss_used_win was)) (avg (ss_filt_win was));
        avg (ss_filt_win was);
        avg (ss_submap_win was);
        calculateIndelAF isri1; calculateIndelAF isri2;
        calculateSOR isri1; calculateSOR isri2;
        calculateFS isri1; calculateFS isri2;
        get_u_stat (readpos_ranksum isri1); get_u_stat (readpos_ranksum isri2);
        mean_mapq isri1; mean_mapq isri2;
        mapq0_frac isri1; mapq0_frac isri2 ] /\
  Forall (fun fx => fst fx = fixed2) (reals_of (sample_column isri1 isri2 was)).
Proof.
  rewrite write_vcf_isri_tiers_append. unfold append. cbn [os_out os_fmt].
  split; [reflexivity|]. split; [reflexivity|].
  split; [apply sample_column_reals|].
  apply sample_column_reals_fixed2.
Qed.

(** C4 as stated fails: on a stream in its default formatting state the
    allele fraction, among others, is written under [fixed2], not under the
    default formatting. *)
Lemma sample_column_not_default_format :
  ~ (forall (C : Collaborators) (isri1 isri2 : starling_indel_sample_report_info)
            (was : win_avg_set),
       reals_of (os_out (@write_vcf_isri_tiers C isri1 isri2 was empty_stream))
       = @spec_sample_column_reals C (os_fmt empty_stream) isri1 isri2 was).
Proof.
  intros Hclaim.
  specialize (Hclaim Sample.collaborators
                (Sample.evidence 20 5 1 10 10 2 3 30) (Sample.evidence 20 5 1 10 10 2 3 30)
                Sample.quiet_window).
  vm_compute in Hclaim. discriminate.
Qed.

(** ** The layout of a record *)

Section Layout.
Context `{Collaborators}.

Lemma vcf_record_layout opt dopt pos siInfo wasNormal wasTumor :
  window_ints_defined wasNormal -> window_ints_defined wasTumor ->
  exists fs : gset STRELKA_VCF_FILTERS,
    vcf_record opt dopt pos siInfo wasNormal wasTumor =
    Ok (record_head opt pos siInfo fs ++ record_tail siInfo wasNormal wasTumor).
Proof.
  intros (nF & nU & HnF & HnU & HnS) (tF & tU & HtF & HtU & HtS).
  unfold vcf_record, writeSomaticIndelVcfGrid, record_tail, record_head, info_block,
    is_breakend, repeat_unit_fields, format_keys.
  unfold_bind.
  rewrite HnF, HnU, HtF, HtU. unfold IEEE.int_add. rewrite HnS, HtS.
  rewrite !write_vcf_isri_tiers_append.
  generalize (sample_column (nisri siInfo).1 (nisri siInfo).2 wasNormal).
  generalize (sample_column (tisri siInfo).1 (tisri siInfo).2 wasTumor).
  intros colT colN. cbv zeta.
  match goal with
  | |- context [write_filters ?sm] => exists (filters sm); generalize sm; intros smod
  end.
  destruct (is_repeat_unit (iri siInfo)),
           (bool_decide (it (iri siInfo) = BP_LEFT) || bool_decide (it (iri siInfo) = BP_RIGHT)),
           (is_overlap (rs (sindel siInfo)));
    run_stream; cbn [app]; reflexivity.
Qed.

(** A record that is rendered was rendered from defined conversions. *)
Lemma vcf_record_Ok_defined opt dopt pos siInfo wasNormal wasTumor r :
  vcf_record opt dopt pos siInfo wasNormal wasTumor = Ok r ->
  window_ints_defined wasNormal /\ window_ints_defined wasTumor.
Proof.
  unfold vcf_record, writeSomaticIndelVcfGrid, window_ints_defined. unfold_bind.
  destruct (IEEE.to_int (avg (ss_filt_win wasNormal))) as [nF|]; [|discriminate].
  destruct (IEEE.to_int (avg (ss_used_win wasNormal))) as [nU|]; [|discriminate].
  unfold IEEE.int_add at 1.
  destruct (Int32.in_int_range (nF + nU)) eqn:HnS; [|discriminate].
  destruct (IEEE.to_int (avg (ss_filt_win wasTumor))) as [tF|]; [|discriminate].
  destruct (IEEE.to_int (avg (ss_used_win wasTumor))) as [tU|]; [|discriminate].
  unfold IEEE.int_add at 1.
  destruct (Int32.in_int_range (tF + tU)) eqn:HtS; [|discriminate].
  intros _. split; eexists _, _; repeat split; eassumption.
Qed.

End Layout.

Lemma count_lit_record s (head colN colT : list token) :
  count_lit s (head ++ ((colN ++ [TLit tab]) ++ colT) ++ [TLit newline]) =
  (count_lit s head + count_lit s colN + count_lit s [TLit tab]
   + count_lit s colT + count_lit s [TLit newline])%nat.
Proof. rewrite !count_lit_app. lia. Qed.

Lemma record_head_take opt pos siInfo fs (tl : list token) :
  take 13 (record_head opt pos siInfo fs ++ tl) =
  [ TStr (bam_seq_name opt); TLit tab; TInt (pos + 1); TLit tab; TLit "."; TLit tab;
    TStr (vcf_ref_seq (iri siInfo)); TLit tab; TStr (vcf_indel_seq (iri siInfo)); TLit tab;
    TLit "."; TLit tab; TFilters fs ].
Proof. reflexivity. Qed.

Ltac count_head :=
  unfold record_head, info_block, repeat_unit_fields;
  destruct (is_repeat_unit _), (is_breakend _), (is_overlap _); reflexivity.

Section RecordProperties.
Context `{Collaborators}.

Lemma sample_column_count_lit s isri1 isri2 was :
  In s (tab :: ";SVTYPE=BND" :: ";OVERLAP" :: mandatory_keys)%string ->
  count_lit s (sample_column isri1 isri2 was) = 0%nat.
Proof.
  intros Hs. rewrite sample_column_tokens.
  repeat (destruct Hs as [<-|Hs]; [reflexivity|]). destruct Hs.
Qed.

Lemma record_head_count_mandatory opt pos siInfo fs s :
  In s mandatory_keys -> count_lit s (record_head opt pos siInfo fs) = 1%nat.
Proof.
  intros Hs. repeat (destruct Hs as [<-|Hs]; [count_head|]). destruct Hs.
Qed.

Lemma record_head_count_tab opt pos siInfo fs :
  count_lit tab (record_head opt pos siInfo fs) = 9%nat.
Proof. count_head. Qed.

Lemma record_head_count_newline opt pos siInfo fs :
  count_lit newline (record_head opt pos siInfo fs) = 0%nat.
Proof. count_head. Qed.

Lemma record_head_count_markers opt pos siInfo fs :
  count_lit ";SVTYPE=BND" (record_head opt pos siInfo fs)
    = (if is_breakend (it (iri siInfo)) then 1 else 0)%nat /\
  count_lit ";OVERLAP" (record_head opt pos siInfo fs)
    = (if is_overlap (rs (sindel siInfo)) then 1 else 0)%nat.
Proof. split; count_head. Qed.

End RecordProperties.

(** X1: a rendered record is the eleven columns of a VCF line: the
    contig, the position plus one, [.] for the identifier, the reference
    and alternate sequences, [.] for the quality and the filter set, then
    the annotation block, the [FORMAT] keys and the two sample columns; it
    holds ten tabs and one end of line, which is its last token. *)
Theorem record_columns `{Collaborators}
    (opt : strelka_options) (dopt : strelka_deriv_options) (pos : Z)
    (siInfo : SomaticIndelVcfInfo) (wasNormal wasTumor : win_avg_set) :
  window_ints_defined wasNormal -> window_ints_defined wasTumor ->
  exists (r : list token) (fs : gset STRELKA_VCF_FILTERS),
    vcf_record opt dopt pos siInfo wasNormal wasTumor = Ok r /\
    r = record_head opt pos siInfo fs ++ record_tail siInfo wasNormal wasTumor /\
    take 13 r =
      [ TStr (bam_seq_name opt); TLit tab; TInt (pos + 1); TLit tab; TLit "."; TLit tab;
        TStr (vcf_ref_seq (iri siInfo)); TLit tab;
        TStr (vcf_indel_seq (iri siInfo)); TLit tab;
        TLit "."; TLit tab; TFilters fs ] /\
    count_lit tab r = 10%nat /\
    count_lit newline r = 1%nat /\
    last r = Some (TLit newline).
Proof.
  intros HN HT.
  destruct (vcf_record_layout opt dopt pos siInfo wasNormal wasTumor HN HT) as (fs & Hr).
  exists (record_head opt pos siInfo fs ++ record_tail siInfo wasNormal wasTumor), fs.
  split; [exact Hr|]. split; [reflexivity|].
  split; [apply record_head_take|].
  unfold record_tail.
  split; [|split].
  - rewrite count_lit_record, record_head_count_tab.
    rewrite !sample_column_count_lit by (left; reflexivity). reflexivity.
  - rewrite count_lit_record, record_head_count_newline.
    rewrite !sample_column_count_newline. reflexivity.
  - rewrite app_assoc. apply last_snoc.
Qed.

Lemma record_columns_witness :
  exists r : list token,
    @vcf_record Sample.collaborators Sample.options Sample.deriv_options 41
      (Sample.candidate REF 60 true 50) Sample.quiet_window Sample.quiet_window = Ok r /\
    take 3 r = [ TStr "chr1"; TLit tab; TInt 42 ] /\
    count_lit tab r = 10%nat.
Proof.
  destruct (@record_columns Sample.collaborators Sample.options Sample.deriv_options 41
              (Sample.candidate REF 60 true 50) Sample.quiet_window Sample.quiet_window
              quiet_window_defined quiet_window_defined)
    as (r & fs & Hr & _ & Htake & Htab & _).
  exists r. split; [exact Hr|]. split; [|exact Htab].
  change 3%nat with (3 `min` 13)%nat. rewrite <- take_take, Htake. reflexivity.
Defined.

(** X2: every rendered record holds each of the annotation keys [SOMATIC],
    [QSI], [TQSI], [NT], [QSI_NT], [TQSI_NT], [SGT] and [IHP], and the
    [FORMAT] keys, exactly once; it holds [;SVTYPE=BND] once when the indel
    type is [BP_LEFT] or [BP_RIGHT] and not at all otherwise, and
    [;OVERLAP] once when [is_overlap] is set and not at all otherwise. *)
Theorem record_annotation_keys `{Collaborators}
    (opt : strelka_options) (dopt : strelka_deriv_options) (pos : Z)
    (siInfo : SomaticIndelVcfInfo) (wasNormal wasTumor : win_avg_set) :
  window_ints_defined wasNormal -> window_ints_defined wasTumor ->
  exists r : list token,
    vcf_record opt dopt pos siInfo wasNormal wasTumor = Ok r /\
    Forall (fun key => count_lit key r = 1%nat) mandatory_keys /\
    count_lit ";SVTYPE=BND" r
      = (if bool_decide (it (iri siInfo) = BP_LEFT \/ it (iri siInfo) = BP_RIGHT)
         then 1 else 0)%nat /\
    count_lit ";OVERLAP" r = (if is_overlap (rs (sindel siInfo)) then 1 else 0)%nat.
Proof.
  intros HN HT.
  destruct (vcf_record_layout opt dopt pos siInfo wasNormal wasTumor HN HT) as (fs & Hr).
  exists (record_head opt pos siInfo fs ++ record_tail siInfo wasNormal wasTumor).
  split; [exact Hr|].
  unfold record_tail.
  destruct (record_head_count_markers opt pos siInfo fs) as [Hbnd Hov].
  split; [|split].
  - apply Forall_forall. intros key Hkey. apply list_elem_of_In in Hkey.
    rewrite count_lit_record, (record_head_count_mandatory _ _ _ _ _ Hkey).
    rewrite !sample_column_count_lit by (do 3 right; exact Hkey).
    repeat (destruct Hkey as [<-|Hkey]; [reflexivity|]). destruct Hkey.
  - rewrite count_lit_record, Hbnd.
    rewrite !sample_column_count_lit by (right; left; reflexivity).
    unfold is_breakend.
    destruct (it (iri siInfo)); reflexivity.
  - rewrite count_lit_record, Hov.
    rewrite !sample_column_count_lit by (do 2 right; left; reflexivity).
    destruct (is_overlap (rs (sindel siInfo))); reflexivity.
Qed.

Lemma record_annotation_keys_witness :
  exists r : list token,
    @vcf_record Sample.collaborators Sample.options Sample.deriv_options 41
      (Sample.candidate REF 60 true 50) Sample.quiet_window Sample.quiet_window = Ok r /\
    count_lit ";IHP=" r = 1%nat /\
    count_lit ";SVTYPE=BND" r = 0%nat.
Proof.
  destruct (@record_annotation_keys Sample.collaborators Sample.options
              Sample.deriv_options 41
              (Sample.candidate REF 60 true 50) Sample.quiet_window Sample.quiet_window
              quiet_window_defined quiet_window_defined)
    as (r & Hr & Hkeys & Hbnd & _).
  exists r. split; [exact Hr|]. split; [|exact Hbnd].
  rewrite Forall_forall in Hkeys. apply Hkeys. vm_compute.
  do 7 right. left.
Defined.

(** X3: a sample column has as many colon-separated fields as the
    [FORMAT] column has keys, fourteen; the nine fields reported for both
    tiers hold one comma each. *)
Theorem sample_column_matches_format `{Collaborators}
    (isri1 isri2 : starling_indel_sample_report_info) (was : win_avg_set) :
  count_lit ":" (sample_column isri1 isri2 was) = count_char ":" format_keys /\
  S (count_lit ":" (sample_column isri1 isri2 was)) = 14%nat /\
  count_lit "," (sample_column isri1 isri2 was) = 9%nat /\
  length (sample_column isri1 isri2 was)
    = (14 + 9 + count_lit ":" (sample_column isri1 isri2 was)
       + count_lit "," (sample_column isri1 isri2 was))%nat.
Proof. rewrite sample_column_tokens. repeat split. Qed.

(** X4: what [writeSomaticIndelVcfGrid] appends depends neither on what
    the stream already holds nor on its formatting state, and the
    formatting state is the same after the call as before. *)
Theorem record_independent_of_stream `{Collaborators}
    (opt : strelka_options) (dopt : strelka_deriv_options) (pos : Z)
    (siInfo : SomaticIndelVcfInfo) (wasNormal wasTumor : win_avg_set)
    (os1 os2 os1' os2' : ostream) :
  writeSomaticIndelVcfGrid opt dopt pos siInfo wasNormal wasTumor os1 = Ok os1' ->
  writeSomaticIndelVcfGrid opt dopt pos siInfo wasNormal wasTumor os2 = Ok os2' ->
  exists r : list token,
    os_out os1' = os_out os1 ++ r /\ os_out os2' = os_out os2 ++ r /\
    os_fmt os1' = os_fmt os1 /\ os_fmt os2' = os_fmt os2.
Proof.
  rewrite !writeSomaticIndelVcfGrid_append. unfold_bind.
  destruct (vcf_record opt dopt pos siInfo wasNormal wasTumor) as [r|]; [|discriminate].
  intros [= <-] [= <-]. exists r. repeat split.
Qed.

Lemma record_independent_of_stream_witness :
  exists (os1' os2' : ostream) (r : list token),
    @writeSomaticIndelVcfGrid Sample.collaborators Sample.options Sample.deriv_options 41
      (Sample.candidate REF 60 true 50) Sample.quiet_window Sample.quiet_window
      empty_stream = Ok os1' /\
    @writeSomaticIndelVcfGrid Sample.collaborators Sample.options Sample.deriv_options 41
      (Sample.candidate REF 60 true 50) Sample.quiet_window Sample.quiet_window
      {| os_out := [TLit "#"]; os_fmt := {| fmt_floatfield := scientific; fmt_precision := 9 |} |}
      = Ok os2' /\
    os_out os1' = r /\ os_out os2' = TLit "#" :: r.
Proof.
  destruct (@writeSomaticIndelVcfGrid Sample.collaborators Sample.options
              Sample.deriv_options 41
              (Sample.candidate REF 60 true 50) Sample.quiet_window Sample.quiet_window
              empty_stream) as [os1'|] eqn:E1; [|vm_compute in E1; discriminate].
  destruct (@writeSomaticIndelVcfGrid Sample.collaborators Sample.options
              Sample.deriv_options 41
              (Sample.candidate REF 60 true 50) Sample.quiet_window Sample.quiet_window
              {| os_out := [TLit "#"];
                 os_fmt := {| fmt_floatfield := scientific; fmt_precision := 9 |} |})
    as [os2'|] eqn:E2; [|vm_compute in E2; discriminate].
  destruct (@record_independent_of_stream Sample.collaborators Sample.options
              Sample.deriv_options 41
              (Sample.candidate REF 60 true 50) Sample.quiet_window Sample.quiet_window
              _ _ os1' os2' E1 E2) as (r & Ho1 & Ho2 & _).
  exists os1', os2', r.
  split; [reflexivity|]. split; [reflexivity|].
  split; [exact Ho1|exact Ho2].
Defined.

(** X6: the filter field of a rendered record is the empty set, which
    [write_filters] prints as a pass, exactly when no max-depth threshold
    is configured or the tier-1 normal depth does not exceed it, the
    fraction of neither window (held in a [float], promoted to [double]
    for the comparison) reaches the maximum, the normal genotype is [REF]
    and the NT-relative quality is not below its lower bound. *)
Theorem filters_empty_iff `{Collaborators}
    (opt : strelka_options) (dopt : strelka_deriv_options) (pos : Z)
    (siInfo : SomaticIndelVcfInfo) (wasNormal wasTumor : win_avg_set)
    (normalFilt normalUsed tumorFilt tumorUsed : Z) :
  IEEE.to_int (avg (ss_filt_win wasNormal)) = Ok normalFilt ->
  IEEE.to_int (avg (ss_used_win wasNormal)) = Ok normalUsed ->
  Int32.in_int_range (normalFilt + normalUsed) = true ->
  IEEE.to_int (avg (ss_filt_win wasTumor)) = Ok tumorFilt ->
  IEEE.to_int (avg (ss_used_win wasTumor)) = Ok tumorUsed ->
  Int32.in_int_range (tumorFilt + tumorUsed) = true ->
  exists (r : list token) (fs : gset STRELKA_VCF_FILTERS),
    vcf_record opt dopt pos siInfo wasNormal wasTumor = Ok r /\
    filter_fields r = [fs] /\
    (fs = ∅ <->
       (is_max_depth (dsfilter dopt) = false \/
        IEEE.gtb (IEEE.double_of_Z (depth (fst (nisri siInfo))))
                 (max_depth (dsfilter dopt)) = false) /\
       IEEE.geb (IEEE.double_of_float
                  (IEEE.float_of_double (safeFrac normalFilt (normalFilt + normalUsed))))
                (indelMaxWindowFilteredBasecallFrac (sfilter opt)) = false /\
       IEEE.geb (IEEE.double_of_float
                  (IEEE.float_of_double (safeFrac tumorFilt (tumorFilt + tumorUsed))))
                (indelMaxWindowFilteredBasecallFrac (sfilter opt)) = false /\
       ntype (rs (sindel siInfo)) = REF /\
       sindelQuality_LowerBound (sfilter opt)
         <= sindel_from_ntype_qphred (rs (sindel siInfo))).
Proof.
  intros HnF HnU HnS HtF HtU HtS.
  destruct (vcf_record_anatomy opt dopt pos siInfo wasNormal wasTumor
              normalFilt normalUsed tumorFilt tumorUsed HnF HnU HnS HtF HtU HtS)
    as (pre & fs & Hr & Hfs & Hd & Hb & Hq & _).
  exists (pre ++ record_tail siInfo wasNormal wasTumor), fs.
  split; [exact Hr|].
  split; [rewrite filter_fields_app, Hfs, record_tail_filter_fields; reflexivity|].
  assert (Hempty : fs = ∅ <-> (HighDepth ∉ fs) /\ (IndelBCNoise ∉ fs) /\ (QSI_ref ∉ fs)).
  { split.
    - intros ->. repeat split; apply not_elem_of_empty.
    - intros (H1 & H2 & H3). apply set_eq. intros f. rewrite elem_of_empty.
      split; [|tauto]. destruct f; tauto. }
  rewrite Hempty, Hd, Hb, Hq. clear Hempty Hd Hb Hq.
  generalize (is_max_depth (dsfilter dopt)).
  generalize (IEEE.gtb (IEEE.double_of_Z (depth (fst (nisri siInfo))))
                       (max_depth (dsfilter dopt))).
  generalize (IEEE.geb (IEEE.double_of_float
                  (IEEE.float_of_double (safeFrac normalFilt (normalFilt + normalUsed))))
                       (indelMaxWindowFilteredBasecallFrac (sfilter opt))).
  generalize (IEEE.geb (IEEE.double_of_float
                  (IEEE.float_of_double (safeFrac tumorFilt (tumorFilt + tumorUsed))))
                       (indelMaxWindowFilteredBasecallFrac (sfilter opt))).
  intros d c b a.
  assert (E1 : ~ (a = true /\ b = true) <-> a = false \/ b = false)
    by (destruct a, b; intuition congruence).
  assert (E2 : ~ (c = true \/ d = true) <-> c = false /\ d = false)
    by (destruct c, d; intuition congruence).
  assert (E3 : ~ (ntype (rs (sindel siInfo)) <> REF \/
                  sindel_from_ntype_qphred (rs (sindel siInfo))
                    < sindelQuality_LowerBound (sfilter opt)) <->
               ntype (rs (sindel siInfo)) = REF /\
               sindelQuality_LowerBound (sfilter opt)
                 <= sindel_from_ntype_qphred (rs (sindel siInfo))).
  { split.
    - intros Hn. split.
      + destruct (decide (ntype (rs (sindel siInfo)) = REF)) as [Hnt|Hnt];
          [exact Hnt|exfalso; apply Hn; left; exact Hnt].
      + apply Z.nlt_ge. intros Hlt. apply Hn. right. exact Hlt.
    - intros [Hnt Hle] [Hne|Hlt]; [exact (Hne Hnt)|lia]. }
  rewrite E1, E2, E3. tauto.
Qed.

(** One filtered basecall to thirty used ones, 1/31 below the maximum 0.3,
    passes; ten to twenty, 10/30 above it, does not. *)
Lemma filters_empty_iff_witness :
  (exists r : list token,
     @vcf_record Sample.collaborators Sample.options Sample.deriv_options 41
       (Sample.candidate REF 60 false 50) Sample.light_window Sample.light_window = Ok r /\
     filter_fields r = [∅]) /\
  (exists (r : list token) (fs : gset STRELKA_VCF_FILTERS),
     @vcf_record Sample.collaborators Sample.options Sample.deriv_options 41
       (Sample.candidate REF 60 false 50) Sample.noisy_window Sample.noisy_window = Ok r /\
     filter_fields r = [fs] /\ fs <> ∅).
Proof.
  split.
  - assert (Hfilt : IEEE.to_int (avg (ss_filt_win Sample.light_window)) = Ok 1)
      by (vm_compute; reflexivity).
    assert (Hused : IEEE.to_int (avg (ss_used_win Sample.light_window)) = Ok 30)
      by (vm_compute; reflexivity).
    assert (Hsum : Int32.in_int_range (1 + 30) = true) by (vm_compute; reflexivity).
    destruct (@filters_empty_iff Sample.collaborators Sample.options Sample.deriv_options 41
                (Sample.candidate REF 60 false 50) Sample.light_window Sample.light_window
                1 30 1 30 Hfilt Hused Hsum Hfilt Hused Hsum)
      as (r & fs & Hr & Hfs & Hiff).
    exists r. split; [exact Hr|].
    rewrite Hfs. f_equal. apply Hiff.
    vm_compute. repeat split; try (right; reflexivity); discriminate.
  - assert (Hfilt : IEEE.to_int (avg (ss_filt_win Sample.noisy_window)) = Ok 10)
      by (vm_compute; reflexivity).
    assert (Hused : IEEE.to_int (avg (ss_used_win Sample.noisy_window)) = Ok 20)
      by (vm_compute; reflexivity).
    assert (Hsum : Int32.in_int_range (10 + 20) = true) by (vm_compute; reflexivity).
    destruct (@filters_empty_iff Sample.collaborators Sample.options Sample.deriv_options 41
                (Sample.candidate REF 60 false 50) Sample.noisy_window Sample.noisy_window
                10 20 10 20 Hfilt Hused Hsum Hfilt Hused Hsum)
      as (r & fs & Hr & Hfs & Hiff).
    exists r, fs. split; [exact Hr|]. split; [exact Hfs|].
    intros Hempty. apply Hiff in Hempty.
    destruct Hempty as (_ & Hnormal & _). vm_compute in Hnormal. discriminate.
Defined.

(** ** Exact quotients *)

Lemma double_of_Z_digits p :
  Zpos p < 2 ^ 53 ->
  exists (m : positive) (e : Z),
    IEEE.double_of_Z (Zpos p) = S754_finite false m e /\ Zpos (digits2_pos m) = 53.
Proof.
  intros Hlt. destruct (double_of_Z_pos p Hlt) as (m & Hm & Hval & Hd).
  exists m, (Zpos (digits2_pos p) - 53). split; [exact Hm|].
  pose proof (digits2_pos_bounds p) as [Hp1 Hp2].
  pose proof (digits2_pos_bounds m) as [Hm1 Hm2].
  set (d := Zpos (digits2_pos p)) in *. set (dm := Zpos (digits2_pos m)) in *.
  assert (Hd1 : 1 <= d) by (subst d; lia).
  assert (Hlo : 2 ^ 52 <= Zpos m).
  { rewrite Hval. replace 52 with ((d - 1) + (53 - d)) by lia.
    rewrite Z.pow_add_r by lia. apply Z.mul_le_mono_nonneg_r; [|exact Hp1].
    apply Z.pow_nonneg. lia. }
  assert (Hhi : Zpos m < 2 ^ 53).
  { rewrite Hval. replace 53 with (d + (53 - d)) at 2 by lia.
    rewrite Z.pow_add_r by lia. apply Z.mul_lt_mono_pos_r; [|exact Hp2].
    apply Z.pow_pos_nonneg; lia. }
  assert (Hdm1 : 1 <= dm) by (subst dm; lia).
  destruct (Z.lt_trichotomy dm 53) as [Hc|[Hc|Hc]]; [|exact Hc|].
  - assert (2 ^ dm <= 2 ^ 52) by (apply Z.pow_le_mono_r; lia). lia.
  - assert (2 ^ 53 <= 2 ^ (dm - 1)) by (apply Z.pow_le_mono_r; lia). lia.
Qed.

(** A [double] of 53 digits divided by itself is 1. *)
Lemma double_div_self m e :
  Zpos (digits2_pos m) = 53 ->
  IEEE.double_div (S754_finite false m e) (S754_finite false m e) = IEEE.double_of_Z 1.
Proof.
  intros Hd. unfold IEEE.double_div. cbn [SFdiv xorb].
  unfold SFdiv_core_binary, Zdigits2. rewrite Hd.
  replace (53 + e - (53 + e)) with 0 by lia.
  replace (e - e) with 0 by lia.
  change (fexp IEEE.double_prec IEEE.double_emax 0) with (-53).
  change (Z.min (-53) 0) with (-53). change (0 - -53) with 53.
  rewrite Z.shiftl_mul_pow2 by lia.
  pose proof (Z_div_mod (Zpos m * 2 ^ 53) (Zpos m) ltac:(lia)) as Hdiv.
  destruct (Z.div_eucl (Zpos m * 2 ^ 53) (Zpos m)) as [q r].
  destruct Hdiv as [Heq Hr].
  assert (Hq : q = 2 ^ 53 /\ r = 0).
  { apply (Z.div_mod_unique (Zpos m)); [left; lia|left; lia|lia]. }
  destruct Hq as [-> ->].
  assert (Hloc : new_location (Zpos m) 0 = loc_Exact).
  { unfold new_location. destruct (Z.even (Zpos m)); reflexivity. }
  rewrite Hloc. vm_compute. reflexivity.
Qed.

Lemma double_div_zero_finite s m e :
  IEEE.double_div (S754_zero false) (S754_finite s m e) = S754_zero s.
Proof. reflexivity. Qed.

Lemma safeFrac_zero_num denom : denom < 2 ^ 53 -> safeFrac 0 denom = IEEE.zero.
Proof.
  intros Hd. unfold safeFrac. destruct (0 <? denom) eqn:Hpos; [|reflexivity].
  apply Z.ltb_lt in Hpos. destruct denom as [|p|p]; try lia.
  destruct (double_of_Z_pos p Hd) as (m & -> & _). reflexivity.
Qed.

Lemma safeFrac_self n : 0 < n < 2 ^ 53 -> safeFrac n n = IEEE.double_of_Z 1.
Proof.
  intros [Hpos Hlt]. rewrite safeFrac_positive by exact Hpos.
  destruct n as [|p|p]; try lia.
  destruct (double_of_Z_digits p Hlt) as (m & e & -> & Hd).
  apply double_div_self, Hd.
Qed.

(** X7: with no indel-supporting read the allele fraction is exactly [0],
    whatever the other counts; with indel-supporting reads only, at most
    [INT_MAX] of them, it is exactly [1]. *)
Theorem calculateIndelAF_extremes (isri : starling_indel_sample_report_info) :
  (n_q30_indel_reads isri = 0 -> calculateIndelAF isri = IEEE.zero) /\
  (n_q30_ref_reads isri = 0 -> n_q30_alt_reads isri = 0 ->
   0 < n_q30_indel_reads isri <= Int32.INT_MAX ->
   calculateIndelAF isri = IEEE.double_of_Z 1).
Proof.
  split.
  - intros H0. unfold calculateIndelAF. rewrite H0.
    change (Int32.to_int 0) with 0. apply safeFrac_zero_num.
    assert (H31 : Int32.to_int
                    (Int32.wrap (n_q30_ref_reads isri + n_q30_alt_reads isri + 0)) < 2 ^ 31).
    { apply to_int_lt. unfold Int32.wrap. apply Z.mod_pos_bound. reflexivity. }
    lia.
  - intros Hr Ha Hi. unfold calculateIndelAF. rewrite Hr, Ha.
    change (0 + 0 + n_q30_indel_reads isri) with (n_q30_indel_reads isri).
    assert (Hmax : Int32.INT_MAX < Int32.modulus) by (vm_compute; reflexivity).
    assert (Hmax' : Int32.INT_MAX < 2 ^ 53) by (vm_compute; reflexivity).
    rewrite (wrap_small (n_q30_indel_reads isri)) by lia.
    rewrite (to_int_small (n_q30_indel_reads isri)) by lia.
    apply safeFrac_self. lia.
Qed.

Lemma calculateIndelAF_extremes_witness :
  calculateIndelAF (Sample.evidence 20 0 3 10 10 0 0 23) = IEEE.zero /\
  calculateIndelAF (Sample.evidence 0 7 0 0 0 3 4 7) = IEEE.double_of_Z 1.
Proof.
  split.
  - apply (proj1 (calculateIndelAF_extremes (Sample.evidence 20 0 3 10 10 0 0 23))).
    reflexivity.
  - apply (proj2 (calculateIndelAF_extremes (Sample.evidence 0 7 0 0 0 3 4 7)));
      [reflexivity|reflexivity|vm_compute; split; [reflexivity|discriminate]].
Defined.

(** X8: when the four strand counts are below 65536, [calculateSOR] is
    infinity if there is no reverse reference read or no forward indel
    read, and otherwise [log10] of the quotient of the exact
    cross-products, a quotient that is not NaN. *)
Theorem calculateSOR_small_counts `{Collaborators}
    (isri : starling_indel_sample_report_info) :
  0 <= n_q30_ref_reads_fwd isri < 65536 ->
  0 <= n_q30_ref_reads_rev isri < 65536 ->
  0 <= n_q30_indel_reads_fwd isri < 65536 ->
  0 <= n_q30_indel_reads_rev isri < 65536 ->
  let quotient :=
    IEEE.double_div
      (IEEE.double_of_Z (n_q30_ref_reads_fwd isri * n_q30_indel_reads_rev isri))
      (IEEE.double_of_Z (n_q30_ref_reads_rev isri * n_q30_indel_reads_fwd isri)) in
  (n_q30_ref_reads_rev isri = 0 \/ n_q30_indel_reads_fwd isri = 0 ->
   calculateSOR isri = IEEE.infinity) /\
  (n_q30_ref_reads_rev isri <> 0 -> n_q30_indel_reads_fwd isri <> 0 ->
   calculateSOR isri = log10 quotient /\ quotient <> S754_nan).
Proof.
  intros Hrf Hrr Hif Hir quotient.
  assert (Hn : 0 <= n_q30_ref_reads_fwd isri * n_q30_indel_reads_rev isri < Int32.modulus)
    by (unfold Int32.modulus; nia).
  assert (Hd : 0 <= n_q30_ref_reads_rev isri * n_q30_indel_reads_fwd isri < Int32.modulus)
    by (unfold Int32.modulus; nia).
  split.
  - intros Hzero. apply calculateSOR_zero_denominator. nia.
  - intros Hr0 Hi0.
    assert (Hdpos : 0 < n_q30_ref_reads_rev isri * n_q30_indel_reads_fwd isri) by nia.
    split.
    + unfold calculateSOR. rewrite !wrap_small by assumption.
      destruct (_ * _ =? 0) eqn:Heq; [apply Z.eqb_eq in Heq; lia|reflexivity].
    + subst quotient.
      destruct (n_q30_ref_reads_rev isri * n_q30_indel_reads_fwd isri) as [|p|p];
        try lia.
      unfold Int32.modulus in Hd.
      destruct (double_of_Z_pos p ltac:(lia)) as (m & -> & _).
      apply SFdiv_finite_not_nan, binary_normalize_not_nan.
Qed.

Lemma calculateSOR_small_counts_witness :
  @calculateSOR Sample.collaborators (Sample.evidence 0 0 0 10 2 0 3 0) = IEEE.infinity /\
  @calculateSOR Sample.collaborators (Sample.evidence 0 0 0 10 10 5 5 0)
    = @log10 Sample.collaborators (IEEE.double_of_Z 1).
Proof.
  split.
  - pose proof (@calculateSOR_small_counts Sample.collaborators
                  (Sample.evidence 0 0 0 10 2 0 3 0)
                  ltac:(simpl; lia) ltac:(simpl; lia) ltac:(simpl; lia) ltac:(simpl; lia))
      as [Hinf _].
    apply Hinf. right. reflexivity.
  - pose proof (@calculateSOR_small_counts Sample.collaborators
                  (Sample.evidence 0 0 0 10 10 5 5 0)
                  ltac:(simpl; lia) ltac:(simpl; lia) ltac:(simpl; lia) ltac:(simpl; lia))
      as [_ Hlog].
    destruct Hlog as [Hsor _]; [simpl; lia|simpl; lia|].
    rewrite Hsor. reflexivity.
Defined.

Lemma to_int_in_range x z : IEEE.to_int x = Ok z -> Int32.in_int_range z = true.
Proof.
  unfold IEEE.to_int. destruct (IEEE.truncate x) as [t|]; [|discriminate].
  destruct (Int32.in_int_range t) eqn:Ht; [|discriminate].
  intros [= <-]. exact Ht.
Qed.

Lemma in_int_range_bounds z :
  Int32.in_int_range z = true -> - 2 ^ 31 <= z <= 2 ^ 31 - 1.
Proof.
  unfold Int32.in_int_range, Int32.INT_MIN, Int32.INT_MAX.
  rewrite andb_true_iff, !Z.leb_le. tauto.
Qed.

Lemma geb_zero_positive thr :
  IEEE.gtb thr IEEE.zero = true -> IEEE.geb IEEE.zero thr = false.
Proof.
  unfold IEEE.gtb, IEEE.geb, IEEE.zero, SFltb, SFleb.
  destruct thr as [s|s| |s m e]; cbn [SFcompare]; try discriminate;
    destruct s; try discriminate; reflexivity.
Qed.

(** A value of magnitude below 1 converts to the [int] [0]. *)
Lemma to_int_below_one s m p :
  Zpos m < 2 ^ Zpos p -> IEEE.to_int (S754_finite s m (Zneg p)) = Ok 0.
Proof.
  intros Hlt. unfold IEEE.to_int, IEEE.truncate.
  rewrite Z.shiftr_div_pow2 by lia. rewrite Z.div_small by lia.
  destruct s; reflexivity.
Qed.

(** X9: when the filtered averages of both windows convert to the [int]
    [0] (as an average below 1 does, [to_int_below_one]) and the maximum
    filtered fraction is positive, the rendered record does not carry
    [IndelBCNoise], whatever the used averages. *)
Theorem IndelBCNoise_not_below_one `{Collaborators}
    (opt : strelka_options) (dopt : strelka_deriv_options) (pos : Z)
    (siInfo : SomaticIndelVcfInfo) (wasNormal wasTumor : win_avg_set)
    (normalUsed tumorUsed : Z) :
  IEEE.to_int (avg (ss_filt_win wasNormal)) = Ok 0 ->
  IEEE.to_int (avg (ss_used_win wasNormal)) = Ok normalUsed ->
  IEEE.to_int (avg (ss_filt_win wasTumor)) = Ok 0 ->
  IEEE.to_int (avg (ss_used_win wasTumor)) = Ok tumorUsed ->
  IEEE.gtb (indelMaxWindowFilteredBasecallFrac (sfilter opt)) IEEE.zero = true ->
  exists (r : list token) (fs : gset STRELKA_VCF_FILTERS),
    vcf_record opt dopt pos siInfo wasNormal wasTumor = Ok r /\
    filter_fields r = [fs] /\
    IndelBCNoise ∉ fs.
Proof.
  intros HnF HnU HtF HtU Hthr.
  pose proof (to_int_in_range _ _ HnU) as HnS.
  pose proof (to_int_in_range _ _ HtU) as HtS.
  destruct (vcf_record_anatomy opt dopt pos siInfo wasNormal wasTumor
              0 normalUsed 0 tumorUsed HnF HnU HnS HtF HtU HtS)
    as (pre & fs & Hr & Hfs & _ & Hb & _).
  exists (pre ++ record_tail siInfo wasNormal wasTumor), fs.
  split; [exact Hr|].
  split; [rewrite filter_fields_app, Hfs, record_tail_filter_fields; reflexivity|].
  rewrite Hb.
  apply in_int_range_bounds in HnS, HtS.
  rewrite !safeFrac_zero_num by lia.
  change (IEEE.double_of_float (IEEE.float_of_double IEEE.zero)) with IEEE.zero.
  rewrite (geb_zero_positive _ Hthr). intros [Hc|Hc]; discriminate.
Qed.

Lemma IndelBCNoise_not_below_one_witness :
  exists (r : list token) (fs : gset STRELKA_VCF_FILTERS),
    @vcf_record Sample.collaborators Sample.options Sample.deriv_options 41
      (Sample.candidate REF 60 false 50) Sample.half_window Sample.half_window = Ok r /\
    filter_fields r = [fs] /\
    IndelBCNoise ∉ fs.
Proof.
  apply (@IndelBCNoise_not_below_one Sample.collaborators Sample.options
           Sample.deriv_options 41 (Sample.candidate REF 60 false 50)
           Sample.half_window Sample.half_window 0 0); vm_compute; reflexivity.
Defined.

(** ** Histories of the buffer *)

Lemma pending_total_insert (w : SomaticIndelVcfWriter) pos (indels : list SomaticIndelVcfInfo) data :
  _data w = <[ pos := indels ]> data -> data !! pos = None ->
  pending_total w =
  (length indels
   + map_fold (fun (_ : Z) (l : list SomaticIndelVcfInfo) (n : nat) => (length l + n)%nat)
              0%nat data)%nat.
Proof.
  intros Hd Hnone. unfold pending_total. rewrite Hd.
  apply (map_fold_insert_L
           (fun (_ : Z) (l : list SomaticIndelVcfInfo) (n : nat) => (length l + n)%nat));
    [intros; lia|exact Hnone].
Qed.


Section HistoryLemmas.
Context `{Collaborators}.

Lemma write_each_lines opt dopt pos wasNormal wasTumor indels : forall os os',
  write_each opt dopt pos indels wasNormal wasTumor os = Ok os' ->
  count_lit newline (os_out os')
  = (count_lit newline (os_out os) + length indels)%nat.
Proof.
  induction indels as [|siInfo rest IH]; intros os os'.
  - intros [= <-]. cbn [length]. lia.
  - cbn [write_each]. rewrite writeSomaticIndelVcfGrid_append. unfold_bind.
    destruct (vcf_record opt dopt pos siInfo wasNormal wasTumor) as [r|] eqn:Hr;
      [|discriminate].
    intros Hrest. apply IH in Hrest. rewrite Hrest.
    destruct (vcf_record_Ok_defined _ _ _ _ _ _ _ Hr) as [HN HT].
    destruct (vcf_record_defined opt dopt pos siInfo wasNormal wasTumor HN HT)
      as (r' & Hr' & Hnl).
    assert (r' = r) as -> by congruence.
    unfold append. cbn [os_out length]. rewrite count_lit_app, Hnl. lia.
Qed.

(** A flush that returns has written one record for each candidate that
    was pending at its position. *)
Lemma flush_lines pos wasNormal wasTumor w w' :
  addIndelWindowData pos wasNormal wasTumor w = Ok w' ->
  records_written w' = (records_written w + length (pending pos w))%nat /\
  pending_total w = (length (pending pos w) + pending_total w')%nat.
Proof.
  intros Hflush.
  pose proof (addIndelWindowData_inv _ _ _ _ _ Hflush) as (Htest & Hdata & _).
  apply testPos_true in Htest. destruct Htest as [l Hl].
  revert Hflush. unfold addIndelWindowData, records_written, pending.
  destruct (testPos pos w); [|discriminate]. unfold_bind. rewrite Hl. cbn [default id].
  destruct (write_each _ _ _ _ _ _ _) as [os'|] eqn:Hw; [|discriminate].
  intros [= <-]. cbn [_osptr]. split.
  - exact (write_each_lines _ _ _ _ _ _ _ _ Hw).
  - rewrite (pending_total_insert w pos l (delete pos (_data w))).
    + reflexivity.
    + symmetry. apply insert_delete_id, Hl.
    + apply lookup_delete_eq.
Qed.

End HistoryLemmas.



(** X11: calls of [cacheIndel] at different positions commute; two calls at
    the same position leave the candidates in call order. *)
Theorem cacheIndel_order (w : SomaticIndelVcfWriter) (p q : Z)
    (a b : SomaticIndelVcfInfo) :
  (p <> q ->
   cacheIndel p a (cacheIndel q b w) = cacheIndel q b (cacheIndel p a w)) /\
  pending p (cacheIndel p b (cacheIndel p a w)) = pending p w ++ [a; b].
Proof.
  split.
  - intros Hne. unfold cacheIndel. cbn [_opt _dopt _osptr _data]. f_equal.
    rewrite !lookup_insert_ne by congruence.
    apply insert_insert_ne. congruence.
  - unfold pending at 1. rewrite cacheIndel_lookup_eq. cbn [default id].
    unfold pending at 1. rewrite cacheIndel_lookup_eq. cbn [default id].
    rewrite <- app_assoc. reflexivity.
Qed.

Lemma cacheIndel_order_witness :
  let a := Sample.candidate REF 40 false 50 in
  let b := Sample.candidate HET 40 true 50 in
  cacheIndel 5 a (cacheIndel 7 b (Sample.writer ∅))
  = cacheIndel 7 b (cacheIndel 5 a (Sample.writer ∅)).
Proof.
  intros a b.
  apply (proj1 (cacheIndel_order (Sample.writer ∅) 5 7 a b)). lia.
Defined.

Lemma entries_nonempty_cacheIndel pos siInfo w :
  entries_nonempty w -> entries_nonempty (cacheIndel pos siInfo w).
Proof.
  intros Hw q l. destruct (decide (pos = q)) as [<-|Hne].
  - rewrite cacheIndel_lookup_eq. intros [= <-]. destruct (pending pos w); discriminate.
  - rewrite cacheIndel_lookup_ne by exact Hne. apply Hw.
Qed.

Lemma entries_nonempty_flush `{Collaborators} pos wasNormal wasTumor w w' :
  entries_nonempty w -> addIndelWindowData pos wasNormal wasTumor w = Ok w' ->
  entries_nonempty w'.
Proof.
  intros Hw Hflush q l.
  apply addIndelWindowData_inv in Hflush as (_ & -> & _).
  rewrite lookup_delete_Some. intros [_ Hl]. exact (Hw q l Hl).
Qed.

(** X12: whatever the history of calls, when it has run to its end the
    entry of a position [p] is what the calls since the last flush of [p]
    have cached at [p], in call order, and [p] has no entry when there
    has been a flush of [p] and no call of [cacheIndel] at [p] since; the
    options are those the history started with. *)
Theorem buffer_history `{Collaborators}
    (calls : list call) (w w' : SomaticIndelVcfWriter) :
  run calls w = Ok w' ->
  (forall p : Z, _data w' !! p = history calls p (_data w !! p)) /\
  _opt w' = _opt w /\ _dopt w' = _dopt w.
Proof.
  revert w. induction calls as [|[pos siInfo|pos wasNormal wasTumor] rest IH]; intros w.
  - intros [= <-]. repeat split.
  - cbn [run history]. intros Hrun.
    destruct (IH _ Hrun) as (Hdata & Hopt & Hdopt).
    split; [|split; assumption].
    intros p. rewrite Hdata. f_equal.
    destruct (bool_decide (pos = p)) eqn:Hp.
    + apply bool_decide_eq_true in Hp. subst p. apply cacheIndel_lookup_eq.
    + apply bool_decide_eq_false in Hp. apply cacheIndel_lookup_ne, Hp.
  - cbn [run history]. unfold_bind.
    destruct (addIndelWindowData pos wasNormal wasTumor w) as [w1|] eqn:Hflush;
      [|discriminate].
    intros Hrun.
    destruct (IH _ Hrun) as (Hdata & Hopt & Hdopt).
    apply addIndelWindowData_inv in Hflush as (_ & Hd1 & Ho1 & Hdo1).
    split; [|split; congruence].
    intros p. rewrite Hdata, Hd1. f_equal.
    destruct (bool_decide (pos = p)) eqn:Hp.
    + apply bool_decide_eq_true in Hp. subst p. apply lookup_delete_eq.
    + apply bool_decide_eq_false in Hp. apply lookup_delete_ne, Hp.
Qed.

Lemma buffer_history_witness :
  let a := Sample.candidate REF 40 false 50 in
  let b := Sample.candidate HET 40 true 50 in
  let c := Sample.candidate HOM 10 true 150 in
  let calls := [ Cache 5 a; Cache 7 b; Flush 5 Sample.quiet_window Sample.quiet_window;
                 Cache 5 c; Cache 7 a ] in
  exists w' : SomaticIndelVcfWriter,
    @run Sample.collaborators calls (Sample.writer ∅) = Ok w' /\
    _data w' !! 5 = Some [c] /\ _data w' !! 7 = Some [b; a] /\ _data w' !! 9 = None.
Proof.
  intros a b c calls.
  destruct (@run Sample.collaborators calls (Sample.writer ∅)) as [w'|] eqn:Hrun;
    [|vm_compute in Hrun; discriminate].
  destruct (@buffer_history Sample.collaborators calls (Sample.writer ∅) w' Hrun)
    as (Hdata & _).
  exists w'. split; [reflexivity|].
  rewrite !Hdata. vm_compute. repeat split.
Defined.

(** X13: no history creates an empty entry: started from a buffer without
    empty entries, every history that runs to its end leaves a buffer
    without empty entries, in which a flush that returns has written at
    least one record. *)
Theorem entries_stay_nonempty `{Collaborators}
    (calls : list call) (w w' : SomaticIndelVcfWriter) :
  entries_nonempty w ->
  run calls w = Ok w' ->
  entries_nonempty w' /\
  (forall (pos : Z) (wasNormal wasTumor : win_avg_set) (w'' : SomaticIndelVcfWriter),
     addIndelWindowData pos wasNormal wasTumor w' = Ok w'' ->
     (records_written w' < records_written w'')%nat).
Proof.
  intros Hw Hrun.
  assert (Hw' : entries_nonempty w').
  { revert w Hw Hrun.
    induction calls as [|[pos siInfo|pos wasNormal wasTumor] rest IH]; intros w Hw.
    - intros [= <-]. exact Hw.
    - cbn [run]. apply IH, entries_nonempty_cacheIndel, Hw.
    - cbn [run]. unfold_bind.
      destruct (addIndelWindowData pos wasNormal wasTumor w) as [w1|] eqn:Hflush;
        [|discriminate].
      apply IH. exact (entries_nonempty_flush _ _ _ _ _ Hw Hflush). }
  split; [exact Hw'|].
  intros pos wasNormal wasTumor w'' Hflush.
  destruct (flush_lines _ _ _ _ _ Hflush) as [Hlines _].
  pose proof (addIndelWindowData_inv _ _ _ _ _ Hflush) as (Htest & _).
  apply testPos_true in Htest. destruct Htest as [l Hl].
  pose proof (Hw' pos l Hl) as Hne.
  rewrite Hlines. unfold pending. rewrite Hl. cbn [default id].
  destruct l; [congruence|]. cbn [length]. lia.
Qed.

Lemma entries_stay_nonempty_witness :
  let calls := [ Cache 5 (Sample.candidate REF 40 false 50);
                 Cache 5 (Sample.candidate HET 40 true 50) ] in
  exists w' : SomaticIndelVcfWriter,
    @run Sample.collaborators calls (Sample.writer ∅) = Ok w' /\
    entries_nonempty w'.
Proof.
  intros calls.
  assert (Hempty : entries_nonempty (Sample.writer ∅)).
  { intros pos l Hl. simpl in Hl. rewrite lookup_empty in Hl. discriminate. }
  exists (cache_all [ (5, Sample.candidate REF 40 false 50);
                      (5, Sample.candidate HET 40 true 50) ] (Sample.writer ∅)).
  split; [reflexivity|].
  exact (proj1 (@entries_stay_nonempty Sample.collaborators calls (Sample.writer ∅) _
                  Hempty eq_refl)).
Defined.


